(** * American Eagle product scraper: a shallow embedding of [scraper.py]

    The development follows the source file top-down:

    - [Text]:     the string primitives the scripts and the Python code rely on
                  ([includes], [startswith], JavaScript [trim], Python [strip],
                  the two price regular expressions, [float]);
    - [Walker]:   [scroll_and_load_products], the infinite-scroll listing walk;
    - [Extractor]: the in-page extraction script and [extract_product_data];
    - [Orchestrator]: [scrape_category] and [run] over run-scoped sets;
    - [WalkerProofs], [TextProofs], [ExtractorProofs], [OrchestratorProofs]:
      what holds of them.

    Strings are sequences of code points below 256 (Rocq's [string]); the
    renderer, the embedding model and the database are oracles whose answers
    are inputs of the functions below. *)

From Stdlib Require Import Ascii String QArith.
From stdpp Require Import gmap strings list.

Local Open Scope string_scope.
Local Open Scope list_scope.
Local Open Scope Z_scope.

(** ** String primitives *)

Module Text.

(** [s.startswith(p)] / the prefix test. *)
Fixpoint startswith (p s : string) : bool :=
  match p, s with
  | EmptyString, _ => true
  | String a p', String b s' => if Ascii.eqb a b then startswith p' s' else false
  | String _ _, EmptyString => false
  end.

(** [hay.includes(needle)] (JavaScript) / [needle in hay] (Python). *)
Fixpoint includes (needle hay : string) : bool :=
  startswith needle hay ||
  match hay with
  | EmptyString => false
  | String _ hay' => includes needle hay'
  end.

Definition is_digit (c : ascii) : bool :=
  let n := nat_of_ascii c in (48 <=? n)%nat && (n <=? 57)%nat.

Definition is_digit_or_comma (c : ascii) : bool :=
  is_digit c || Ascii.eqb c ","%char.

Definition is_alpha (c : ascii) : bool :=
  let n := nat_of_ascii c in
  ((65 <=? n)%nat && (n <=? 90)%nat) || ((97 <=? n)%nat && (n <=? 122)%nat).

(** Longest prefix of [s] whose characters satisfy [p], and the rest. *)
Fixpoint span (p : ascii -> bool) (s : string) : string * string :=
  match s with
  | EmptyString => (EmptyString, EmptyString)
  | String c s' =>
      if p c then let '(a, r) := span p s' in (String c a, r)
      else (EmptyString, s)
  end.

(** Suffix of [s] that starts at the first character satisfying [p]. *)
Fixpoint drop_until (p : ascii -> bool) (s : string) : option string :=
  match s with
  | EmptyString => None
  | String c s' => if p c then Some s else drop_until p s'
  end.

Fixpoint all_chars (p : ascii -> bool) (s : string) : bool :=
  match s with
  | EmptyString => true
  | String c s' => p c && all_chars p s'
  end.


(** The first character of [s] exists and satisfies [p]. *)
Definition starts_with_char (p : ascii -> bool) (s : string) : bool :=
  match s with
  | EmptyString => false
  | String c _ => p c
  end.

Definition is_empty (s : string) : bool :=
  match s with EmptyString => true | String _ _ => false end.

(** Remove leading / trailing characters satisfying [p]. *)
Fixpoint lstrip (p : ascii -> bool) (s : string) : string :=
  match s with
  | EmptyString => EmptyString
  | String c s' => if p c then lstrip p s' else s
  end.

Fixpoint rstrip (p : ascii -> bool) (s : string) : string :=
  match s with
  | EmptyString => EmptyString
  | String c s' =>
      let r := rstrip p s' in
      if p c && is_empty r then EmptyString else String c r
  end.

(** Code points below 256 that JavaScript's [String.prototype.trim]
    removes (WhiteSpace and LineTerminator): TAB, LF, VT, FF, CR, SP, NBSP. *)
Definition js_whitespace (c : ascii) : bool :=
  let n := nat_of_ascii c in
  ((9 <=? n)%nat && (n <=? 13)%nat) || (n =? 32)%nat || (n =? 160)%nat.

(** Code points below 256 for which Python's [str.isspace] holds, hence
    removed by [str.strip()]: those of JavaScript and, in addition, the
    separators FS, GS, RS, US (28..31) and NEL (133). *)
Definition py_whitespace (c : ascii) : bool :=
  let n := nat_of_ascii c in
  ((9 <=? n)%nat && (n <=? 13)%nat) || ((28 <=? n)%nat && (n <=? 32)%nat)
  || (n =? 133)%nat || (n =? 160)%nat.

Definition js_trim (s : string) : string := rstrip js_whitespace (lstrip js_whitespace s).
Definition py_strip (s : string) : string := rstrip py_whitespace (lstrip py_whitespace s).

(** ASCII part of [toLowerCase]. *)
Definition lower_char (c : ascii) : ascii :=
  let n := nat_of_ascii c in
  if (65 <=? n)%nat && (n <=? 90)%nat then ascii_of_nat (n + 32) else c.

Fixpoint to_lower (s : string) : string :=
  match s with
  | EmptyString => EmptyString
  | String c s' => String (lower_char c) (to_lower s')
  end.

(** [sep.join(parts)]. *)
Fixpoint join (sep : string) (parts : list string) : string :=
  match parts with
  | [] => EmptyString
  | [x] => x
  | x :: rest => x +:+ sep +:+ join sep rest
  end.

(** The characters a match of the page's price pattern is made of. *)
Definition price_char (c : ascii) : bool := is_digit_or_comma c || Ascii.eqb c "."%char.

(** A class run, an optional dot, a digit run, read from the start of
    [t]: what [cls+\.?[0-9]*] matches there (the greedy class run never
    has to give a character back, as the rest may match nothing). *)
Definition number_token (cls : ascii -> bool) (t : string) : string :=
  let '(a, r) := span cls t in
  match r with
  | String "."%char r' => let '(b, _) := span is_digit r' in a +:+ "." +:+ b
  | _ => a
  end.

(** [priceText.match(/[0-9,]+\.?[0-9]*/)]: the leftmost match, if any. *)
Definition js_price_match (text : string) : option string :=
  match drop_until is_digit_or_comma text with
  | None => None
  | Some t => Some (number_token is_digit_or_comma t)
  end.

(** [s.replace(',', '')] with a string pattern: only the first
    occurrence is replaced. *)
Fixpoint js_replace_first_comma (s : string) : string :=
  match s with
  | EmptyString => EmptyString
  | String c s' => if Ascii.eqb c ","%char then s' else String c (js_replace_first_comma s')
  end.

(** [re.search] with the pattern [\d+\.?\d*] (one group around all of
    it): group 1 of the leftmost match. *)
Definition py_first_number (s : string) : option string :=
  match drop_until is_digit s with
  | None => None
  | Some t => Some (number_token is_digit t)
  end.

(** [body.textContent.match(/\$|USD|EUR|GBP/)]: the leftmost match. *)
Fixpoint js_currency_match (s : string) : option string :=
  if startswith "$" s then Some "$"
  else if startswith "USD" s then Some "USD"
  else if startswith "EUR" s then Some "EUR"
  else if startswith "GBP" s then Some "GBP"
  else match s with
       | EmptyString => None
       | String _ s' => js_currency_match s'
       end.

(** A URL is absolute when it starts with a scheme and a colon
    (a letter, then letters, digits, [+], [-] or [.]). *)
Definition is_scheme_char (c : ascii) : bool :=
  is_alpha c || is_digit c || Ascii.eqb c "+"%char || Ascii.eqb c "-"%char
  || Ascii.eqb c "."%char.

Definition is_absolute_url (s : string) : bool :=
  match s with
  | EmptyString => false
  | String c _ => is_alpha c && startswith ":" (snd (span is_scheme_char s))
  end.


Definition digit_value (c : ascii) : N := N.of_nat (nat_of_ascii c - 48).

(** Value of a digit string read in base ten, continuing from [acc]. *)
Fixpoint digits_value (acc : N) (s : string) : N :=
  match s with
  | EmptyString => acc
  | String c s' => digits_value (10 * acc + digit_value c)%N s'
  end.

(** The number written [ip.fp] as a reduced fraction. *)
Definition decimal (ip fp : string) : Q :=
  Qred (Qmake (Z.of_N (digits_value 0 (ip +:+ fp)))
              (Z.to_pos (10 ^ Z.of_nat (String.length fp)))).

(** [float(s)] on the strings it meets here, which are made of digits,
    commas and dots: the accepted ones are [digits], [digits.],
    [digits.digits] and [.digits]; on any other [None] stands for
    [ValueError].  The value is the decimal's exact value: rounding to
    the nearest double is not modelled. *)
Definition py_float (s : string) : option Q :=
  let '(ip, r) := span is_digit s in
  match r with
  | EmptyString => if is_empty ip then None else Some (decimal ip EmptyString)
  | String "."%char fp =>
      if all_chars is_digit fp && negb (is_empty ip && is_empty fp)
      then Some (decimal ip fp) else None
  | _ => None
  end.

(** *** The price rule in the specification's words *)





End Text.

(** ** The listing walker: [scroll_and_load_products] *)

Module Walker.
Import Text.

(** An anchor element of the rendered listing: its [href] attribute as
    written in the markup, and its [href] property, which the renderer
    resolves against the document's base URL. *)
Record anchor := { attr_href : string; href : string }.

(** What one scroll iteration observes: [document.body.scrollHeight] and
    the anchors of the document. *)
Record observation := { height : Z; anchors : list anchor }.

(** The renderer, as seen by one walk: the observation made in the i-th
    iteration, or [None] when a [page.evaluate] call raises there. *)
Definition page := nat -> option observation.

(** The in-page script
    [Array.from(document.querySelectorAll('a[href*="/p/"]'))
       .map(link => link.href).filter(href => href.includes('/p/'))]. *)
Definition current_urls (o : observation) : list string :=
  filter (fun h => includes "/p/" h = true)
    (map href (filter (fun a => includes "/p/" (attr_href a) = true) (anchors o))).

(** Python truthiness of [max_products and len(product_urls) >= max_products]. *)
Definition cap_reached (max_products : option Z) (product_urls : list string) : bool :=
  match max_products with
  | None => false
  | Some m => negb (m =? 0) && (m <=? Z.of_nat (length product_urls))
  end.

(** The inner [for url in current_urls] loop, with its [break]. *)
Fixpoint add_unique (max_products : option Z) (cur : list string)
    (product_urls : list string) : list string :=
  match cur with
  | [] => product_urls
  | url :: rest =>
      if bool_decide (url ∈ product_urls) then add_unique max_products rest product_urls
      else
        let product_urls' := product_urls ++ [url] in
        if cap_reached max_products product_urls' then product_urls'
        else add_unique max_products rest product_urls'
  end.

(** The local variables of the walk.  [iterations] is a ghost counter of
    loop bodies entered (it indexes the renderer's observations). *)
Record walk_state := {
  product_urls : list string;
  last_height : Z;
  scroll_attempts : Z;
  no_change_count : Z;
  iterations : nat
  }.

Definition walk_init : walk_state :=
  {| product_urls := []; last_height := 0; scroll_attempts := 0;
     no_change_count := 0; iterations := 0 |}.

(** Why the [while] loop was left. *)
Inductive stop_reason := ProductCap | NoGrowth | AttemptCap.

Inductive loop_result :=
  | Stopped (why : stop_reason) (st : walk_state)
  | RendererError (st : walk_state)
  | OutOfFuel.

(** One pass through the body of the [while] loop: either a [break]
    ([inl]) or the state for the next test of the loop condition ([inr]). *)
Definition walk_body (max_products : option Z) (o : observation) (st : walk_state)
    : (stop_reason * walk_state) + walk_state :=
  let urls := add_unique max_products (current_urls o) (product_urls st) in
  let it := S (iterations st) in
  if cap_reached max_products urls then
    inl (ProductCap,
         {| product_urls := urls; last_height := last_height st;
            scroll_attempts := scroll_attempts st;
            no_change_count := no_change_count st; iterations := it |})
  else if height o =? last_height st then
    let n := no_change_count st + 1 in
    if 3 <=? n then
      inl (NoGrowth,
           {| product_urls := urls; last_height := last_height st;
              scroll_attempts := scroll_attempts st;
              no_change_count := n; iterations := it |})
    else
      inr {| product_urls := urls; last_height := height o;
             scroll_attempts := scroll_attempts st + 1;
             no_change_count := n; iterations := it |}
  else
    inr {| product_urls := urls; last_height := height o;
           scroll_attempts := scroll_attempts st + 1;
           no_change_count := 0; iterations := it |}.

(** [while scroll_attempts < max_scrolls: ...], unrolled at most [fuel] times. *)
Fixpoint walk_loop (fuel : nat) (pg : page) (max_scrolls : Z)
    (max_products : option Z) (st : walk_state) : loop_result :=
  if scroll_attempts st <? max_scrolls then
    match fuel with
    | O => OutOfFuel
    | S fuel' =>
        match pg (iterations st) with
        | None => RendererError st
        | Some o =>
            match walk_body max_products o st with
            | inl (why, st') => Stopped why st'
            | inr st' => walk_loop fuel' pg max_scrolls max_products st'
            end
        end
    end
  else Stopped AttemptCap st.

(** The loop from its initial state, unrolled [max_scrolls] times (which
    is enough, see [WalkerProofs.walk_fuel_enough]). *)
Definition walk (pg : page) (max_scrolls : Z) (max_products : option Z) : loop_result :=
  walk_loop (Z.to_nat max_scrolls) pg max_scrolls max_products walk_init.

(** [return list(set(product_urls))]: the elements of the set, in the
    set's own order. *)
Definition to_url_list (urls : list string) : list string :=
  elements (list_to_set urls : gset string).

(** [scroll_and_load_products(page, max_scrolls, max_products)]:
    [None] when the renderer raised during the walk. *)
Definition scroll_and_load_products (pg : page) (max_scrolls : Z)
    (max_products : option Z) : option (list string) :=
  match walk pg max_scrolls max_products with
  | Stopped _ st => Some (to_url_list (product_urls st))
  | RendererError _ => None
  | OutOfFuel => None
  end.

(** Number of loop bodies the walk entered (scroll commands issued),
    the one in which the renderer raised included. *)
Definition walk_iterations (pg : page) (max_scrolls : Z)
    (max_products : option Z) : option nat :=
  match walk pg max_scrolls max_products with
  | Stopped _ st => Some (iterations st)
  | RendererError st => Some (S (iterations st))
  | OutOfFuel => None
  end.

(** *** The page's history, read off the renderer directly *)

(** The height the [i]-th iteration compares with: 0 at first, then the
    height read by the iteration before. *)
Definition prev_height (pg : page) (i : nat) : option Z :=
  match i with
  | O => Some 0
  | S j => height <$> pg j
  end.

(** Iteration [i] read the same height as the one before. *)
Definition unchanged (pg : page) (i : nat) : bool :=
  match pg i, prev_height pg i with
  | Some o, Some h => height o =? h
  | _, _ => false
  end.

(** Iteration [i] read a height that is not larger than the one before. *)
Definition not_increased (pg : page) (i : nat) : bool :=
  match pg i, prev_height pg i with
  | Some o, Some h => height o <=? h
  | _, _ => false
  end.

(** The last three of the first [n] iterations all satisfy [P]. *)
Definition last_three (P : nat -> bool) (n : nat) : bool :=
  match n with
  | S (S (S k)) => P k && P (S k) && P (S (S k))
  | _ => false
  end.

(** The page never fails and is taller at every iteration. *)
Definition grows_forever (pg : page) : Prop :=
  forall i, exists o h, pg i = Some o /\ prev_height pg i = Some h /\ h < height o.

(** The state one pass of the body leaves, whichever way it ends. *)
Definition body_state (max_products : option Z) (o : observation)
    (st : walk_state) : walk_state :=
  match walk_body max_products o st with
  | inl (_, st') => st'
  | inr st' => st'
  end.



(** What the loop knows each time it tests its condition. *)
Record walk_inv (pg : page) (max_scrolls : Z) (max_products : option Z)
    (st : walk_state) : Prop := {
  inv_attempts : Z.of_nat (iterations st) = scroll_attempts st;
  inv_attempts_le : scroll_attempts st <= Z.max 0 max_scrolls;
  inv_last_height : prev_height pg (iterations st) = Some (last_height st);
  inv_count : 0 <= no_change_count st < 3;
  inv_count_le : (Z.to_nat (no_change_count st) <= iterations st)%nat;
  inv_run : forall j,
    (iterations st - Z.to_nat (no_change_count st) <= j < iterations st)%nat ->
    unchanged pg j = true;
  inv_run_start :
    (Z.to_nat (no_change_count st) < iterations st)%nat ->
    unchanged pg (iterations st - Z.to_nat (no_change_count st) - 1) = false;
  inv_no_three : forall k,
    last_three (unchanged pg) k = true -> (iterations st < k)%nat;
  inv_cap : (0 < iterations st)%nat -> cap_reached max_products (product_urls st) = false
  }.

Definition stop_justified (pg : page) (max_scrolls : Z) (max_products : option Z)
    (why : stop_reason) (st : walk_state) : Prop :=
  (forall k, last_three (unchanged pg) k = true -> (iterations st <= k)%nat)
  /\ (iterations st <= Z.to_nat max_scrolls)%nat
  /\ match why with
     | ProductCap => cap_reached max_products (product_urls st) = true
     | NoGrowth =>
         last_three (unchanged pg) (iterations st) = true
         /\ cap_reached max_products (product_urls st) = false
     | AttemptCap =>
         iterations st = Z.to_nat max_scrolls
         /\ last_three (unchanged pg) (iterations st) = false
         /\ ((0 < iterations st)%nat ->
             cap_reached max_products (product_urls st) = false)
     end.

(** The stop rule in the specification's words, "height has failed to
    increase for three consecutive iterations": once the last three of
    the first [k] iterations read no larger a height than the reading
    before, the walk has made at most [k] iterations. *)
Definition stops_when_height_fails_to_increase (pg : page) (max_scrolls : Z)
    (max_products : option Z) : Prop :=
  forall k n, last_three (not_increased pg) k = true ->
    walk_iterations pg max_scrolls max_products = Some n -> (n <= k)%nat.

(** *** Sample listings *)

Definition link (path : string) : anchor :=
  {| attr_href := path; href := "https://www.ae.com" +:+ path |}.

(** Two products, one of them linked twice, on a page of fixed height. *)
Definition listing_of_two : page :=
  fun _ => Some {| height := 1000;
                   anchors := [link "/us/en/p/men/jeans/0001";
                               link "/us/en/p/men/shirts/0002";
                               link "/us/en/p/men/jeans/0001";
                               link "/us/en/c/men/mens"] |}.

(** A page that is empty from the start. *)
Definition still_page : page :=
  fun _ => Some {| height := 0; anchors := [] |}.

(** A page whose height shrinks by one at every iteration. *)
Definition shrinking_page : page :=
  fun i => Some {| height := 100 - Z.of_nat i; anchors := [] |}.

(** A page that grows and shows a new product at every iteration. *)
Definition growing_page : page :=
  fun i => Some {| height := Z.of_nat (S i);
                   anchors := [link ("/us/en/p/" +:+ string_of_list_ascii (replicate i "x"%char))] |}.

End Walker.

(** ** The product extractor: [extract_product_data] *)

Module Extractor.
Import Text.

(** An [img] element: its resolved [src] property (empty when the
    attribute is missing) and its raw [data-src] attribute. *)
Record img_el := { img_src : string; img_data_src : option string }.

(** The rendered product page, as far as the extraction script queries
    it.  Text fields are the [textContent] of the element found. *)
Record product_dom := {
  dom_title_els : list (option string);  (* querySelector per title selector, in order *)
  dom_price_el : option string;          (* the price element *)
  dom_body_text : string;                (* document.body.textContent *)
  dom_product_img : option img_el;       (* querySelector of the product-image selectors *)
  dom_images : list img_el;              (* querySelectorAll('img') *)
  dom_desc_el : option string;           (* the description element *)
  dom_size_groups : list (list string);  (* querySelectorAll per size selector, in order *)
  dom_breadcrumb : list string;          (* the breadcrumb anchors *)
  dom_pathname : string;                 (* window.location.pathname *)
  dom_href : string                      (* window.location.href *)
  }.

Record metadata := { md_url : string; md_breadcrumbs : list string }.

(** The object [data] the script returns; [title] and [price_text] are
    keys that may be missing. *)
Record js_data := {
  jd_title : option string;
  jd_price_text : option string;
  jd_currency : string;
  jd_image_url : string;
  jd_description : string;
  jd_sizes : list string;
  jd_category : string;
  jd_gender : string;
  jd_metadata : metadata
  }.

(** [for (const selector of titleSelectors) ...]: first element whose
    trimmed text is non-empty. *)
Fixpoint js_title (els : list (option string)) : option string :=
  match els with
  | [] => None
  | None :: rest => js_title rest
  | Some t :: rest =>
      if is_empty (js_trim t) then js_title rest else Some (js_trim t)
  end.

(** [priceMatch ? priceMatch[0].replace(',', '') : ''] on the trimmed text. *)
Definition js_price_text (el_text : string) : string :=
  match js_price_match (js_trim el_text) with
  | Some m => js_replace_first_comma m
  | None => EmptyString
  end.

(** [currencyMatch ? (currencyMatch[0] === '$' ? 'USD' : currencyMatch[0]) : 'USD']. *)
Definition js_currency (body_text : string) : string :=
  match js_currency_match body_text with
  | Some m => if String.eqb m "$" then "USD" else m
  | None => "USD"
  end.

(** [img.src || img.getAttribute('data-src') || '']. *)
Definition img_source (i : img_el) : string :=
  if is_empty (img_src i)
  then match img_data_src i with Some d => d | None => EmptyString end
  else img_src i.

Definition looks_like_product_image (i : img_el) : bool :=
  let src := img_source i in
  includes "product" src ||
  (includes "ae.com" src && (includes ".jpg" src || includes ".png" src)).

Definition js_image_url (d : product_dom) : string :=
  let img_el :=
    match dom_product_img d with
    | Some i => Some i
    | None => List.find looks_like_product_image (dom_images d)
    end in
  match img_el with
  | Some i => img_source i
  | None => EmptyString
  end.

(** First size selector with any match; trimmed texts that are non-empty
    and shorter than 10. *)
Fixpoint js_size_buttons (groups : list (list string)) : list string :=
  match groups with
  | [] => []
  | [] :: rest => js_size_buttons rest
  | g :: _ => g
  end.

Definition js_sizes (groups : list (list string)) : list string :=
  List.filter (fun s => negb (is_empty s) && (String.length s <? 10)%nat)
    (map js_trim (js_size_buttons groups)).

Definition js_gender (pathname : string) : string :=
  let path := to_lower pathname in
  if includes "/women/" path || includes "/womens" path then "WOMAN"
  else if includes "/men/" path || includes "/mens" path then "MAN"
  else "OTHER".

(** The script passed to [page.evaluate] in [extract_product_data]. *)
Definition extract_script (d : product_dom) : js_data :=
  {| jd_title := js_title (dom_title_els d);
     jd_price_text := js_price_text <$> dom_price_el d;
     jd_currency := js_currency (dom_body_text d);
     jd_image_url := js_image_url d;
     jd_description :=
       match dom_desc_el d with Some t => js_trim t | None => EmptyString end;
     jd_sizes := js_sizes (dom_size_groups d);
     jd_category :=
       match last (dom_breadcrumb d) with Some t => js_trim t | None => EmptyString end;
     jd_gender := js_gender (dom_pathname d);
     jd_metadata :=
       {| md_url := dom_href d; md_breadcrumbs := map js_trim (dom_breadcrumb d) |} |}.

(** The [# Parse price] block.  The outer [option] is [None] when the
    fallback's [float] raises, which the enclosing [try] turns into a
    failed extraction. *)
Definition parse_price (price_text : option string) : option (option Q) :=
  match price_text with
  | None => Some None
  | Some t =>
      if is_empty t then Some None
      else match py_float t with
           | Some v => Some (Some v)
           | None =>
               match py_first_number t with
               | Some m => match py_float m with
                           | Some v => Some (Some v)
                           | None => None
                           end
               | None => Some None
               end
           end
  end.


(** What the embedding pipeline does for one image URL: it raises
    somewhere (download, decoding, model), or the model yields a vector.
    The coordinates are floats; only their number matters below. *)
Inductive embed_response :=
  | EmbedRaises
  | EmbedVector (v : list Q).

(** [ImageEmbedder.generate_embedding]. *)
Definition generate_embedding (resp : embed_response) : option (list Q) :=
  match resp with
  | EmbedRaises => None
  | EmbedVector v => if bool_decide (length v ≠ 768%nat) then None else Some v
  end.

(** The dictionary [extract_product_data] returns. *)
Record product_record := {
  pr_id : string;
  pr_source : string;
  pr_product_url : string;
  pr_affiliate_url : option string;
  pr_image_url : string;
  pr_brand : string;
  pr_title : string;
  pr_description : option string;
  pr_category : option string;
  pr_gender : string;
  pr_price : option Q;
  pr_currency : string;
  pr_size : option string;
  pr_second_hand : bool;
  pr_metadata : metadata;
  pr_embedding : option (list Q)
  }.

(** One visit of a product page: whether [page.goto] succeeds, the DOM
    the script then sees, and the embedding pipeline's answer for the
    image URL. *)
Record product_page := {
  pp_goto_ok : bool;
  pp_dom : product_dom;
  pp_embed : string -> embed_response
  }.

Definition base_url : string := "https://www.ae.com".

(** [x.strip() if x else None]. *)
Definition strip_or_none (s : string) : option string :=
  if is_empty s then None else Some (py_strip s).

Section WithLibraries.
(** [urllib.parse.urljoin] and the hex digest of SHA-256, two library
    functions the extractor calls. *)
Variable urljoin : string -> string -> string.
Variable sha256_hex : string -> string.

(** [generate_product_id]. *)
Definition generate_product_id (product_url : string) : string :=
  sha256_hex product_url.

(** The [# Get full image URL] block: [None] is the [return None]. *)
Definition full_image_url (image_url : string) : option string :=
  let image_url' :=
    if startswith "http" image_url then image_url else urljoin base_url image_url in
  if startswith "http" image_url' then Some image_url' else None.

(** [extract_product_data(page, product_url)]; [None] is Python's
    [None], returned by the validations and by the [except] clause. *)
Definition extract_product_data (pp : product_page) (product_url : string)
    : option product_record :=
  if negb (pp_goto_ok pp) then None
  else
    let product_data := extract_script (pp_dom pp) in
    match jd_title product_data with
    | None => None
    | Some title =>
        if is_empty title then None
        else if is_empty (jd_image_url product_data) then None
        else
          match parse_price (jd_price_text product_data) with
          | None => None
          | Some price =>
              match full_image_url (jd_image_url product_data) with
              | None => None
              | Some image_url =>
                  Some
                    {| pr_id := generate_product_id product_url;
                       pr_source := "scraper";
                       pr_product_url := product_url;
                       pr_affiliate_url := None;
                       pr_image_url := image_url;
                       pr_brand := "American Eagle";
                       pr_title := py_strip title;
                       pr_description := strip_or_none (jd_description product_data);
                       pr_category := strip_or_none (jd_category product_data);
                       pr_gender := jd_gender product_data;
                       pr_price := price;
                       pr_currency := jd_currency product_data;
                       pr_size :=
                         match jd_sizes product_data with
                         | [] => None
                         | sizes => Some (join ", " sizes)
                         end;
                       pr_metadata := jd_metadata product_data;
                       pr_second_hand := false;
                       pr_embedding := generate_embedding (pp_embed pp image_url) |}
              end
          end
    end.

End WithLibraries.

(** The same visit with another answer from the embedding pipeline. *)
Definition with_embed (pp : product_page) (e : string -> embed_response) : product_page :=
  {| pp_goto_ok := pp_goto_ok pp; pp_dom := pp_dom pp; pp_embed := e |}.

(** The same record with no embedding. *)
Definition without_embedding (r : product_record) : product_record :=
  {| pr_id := pr_id r; pr_source := pr_source r; pr_product_url := pr_product_url r;
     pr_affiliate_url := pr_affiliate_url r; pr_image_url := pr_image_url r;
     pr_brand := pr_brand r; pr_title := pr_title r;
     pr_description := pr_description r; pr_category := pr_category r;
     pr_gender := pr_gender r; pr_price := pr_price r; pr_currency := pr_currency r;
     pr_size := pr_size r; pr_second_hand := pr_second_hand r;
     pr_metadata := pr_metadata r; pr_embedding := None |}.

(** *** Sample pages *)

(** Stand-ins for the two library functions, for running the examples:
    a join that keeps absolute URLs and puts the others after the base
    (which has no path), and a digest that only tags its input. *)
Definition urljoin_simple (base url : string) : string :=
  if is_absolute_url url then url
  else if startswith "/" url then base +:+ url
  else base +:+ "/" +:+ url.

Definition digest_stub (s : string) : string := "sha256:" +:+ s.

(** A product page with a title, a price and a product image. *)
Definition jeans_dom (image : img_el) : product_dom :=
  {| dom_title_els := [None; Some "  AE Slim Jean "];
     dom_price_el := Some "$49.99";
     dom_body_text := "AE Slim Jean $49.99";
     dom_product_img := Some image;
     dom_images := [image];
     dom_desc_el := None;
     dom_size_groups := [];
     dom_breadcrumb := ["Men"; "Jeans"];
     dom_pathname := "/us/en/p/men/jeans/0001";
     dom_href := "https://www.ae.com/us/en/p/men/jeans/0001" |}.

(** An image served from the site's image host. *)
Definition hosted_image : img_el :=
  {| img_src := "https://s7d2.scene7.com/is/image/aeo/0001_f"; img_data_src := None |}.

(** A lazily loaded image: no [src] yet, and a relative path in
    [data-src] that happens to begin with the letters "http". *)
Definition lazy_image : img_el :=
  {| img_src := EmptyString; img_data_src := Some "http_assets/product/0001.jpg" |}.

(** A 512-dimensional answer from the embedding model. *)
Definition short_vector : embed_response := EmbedVector (replicate 512 0%Q).

Definition jeans_page (image : img_el) (e : embed_response) : product_page :=
  {| pp_goto_ok := true; pp_dom := jeans_dom image; pp_embed := fun _ => e |}.

(** A page whose only heading holds the single character U+001C, which
    JavaScript's [trim] keeps and Python's [strip] removes. *)
Definition separator_title_page : product_page :=
  {| pp_goto_ok := true;
     pp_dom :=
       {| dom_title_els := [Some (String "028"%char EmptyString)];
          dom_price_el := None;
          dom_body_text := EmptyString;
          dom_product_img := Some hosted_image;
          dom_images := [hosted_image];
          dom_desc_el := None;
          dom_size_groups := [];
          dom_breadcrumb := [];
          dom_pathname := "/us/en/p/men/jeans/0001";
          dom_href := "https://www.ae.com/us/en/p/men/jeans/0001" |};
     pp_embed := fun _ => EmbedRaises |}.

End Extractor.

(** ** The crawl orchestrator: [scrape_category] and [run] *)

Module Orchestrator.
Import Text Extractor.

(** The scraper object's run-scoped fields, with two ghost logs: the
    records handed to [upsert_product] (with the sink's answer) and the
    category URLs navigated to. *)
Record crawl_state := {
  scraped_urls : gset string;
  failed_urls : gset string;
  sink_log : list (product_record * bool);
  visited : list string
  }.

(** [AmericanEagleScraper.__init__]. *)
Definition crawl_init : crawl_state :=
  {| scraped_urls := ∅; failed_urls := ∅; sink_log := []; visited := [] |}.

(** The outside world during one [scrape_category] call: whether the
    category page loads, what the listing shows while scrolling, what
    each product page shows, and whether the sink accepts a record. *)
Record category_world := {
  cw_goto_ok : bool;
  cw_page : Walker.page;
  cw_product : string -> product_page;
  cw_upsert_ok : product_record -> bool
  }.

(** [SupabaseClient.upsert_product]: [True] unless the client raises. *)
Definition upsert_product (cw : category_world) (product_data : product_record) : bool :=
  cw_upsert_ok cw product_data.

(** Ghost: [page.goto(category_url)] is called. *)
Definition note_visit (category_url : string) (st : crawl_state) : crawl_state :=
  {| scraped_urls := scraped_urls st; failed_urls := failed_urls st;
     sink_log := sink_log st; visited := visited st ++ [category_url] |}.

Definition mark_scraped (url : string) (r : product_record) (st : crawl_state) : crawl_state :=
  {| scraped_urls := {[url]} ∪ scraped_urls st; failed_urls := failed_urls st;
     sink_log := sink_log st ++ [(r, true)]; visited := visited st |}.

Definition mark_failed (url : string) (handed : list (product_record * bool))
    (st : crawl_state) : crawl_state :=
  {| scraped_urls := scraped_urls st; failed_urls := {[url]} ∪ failed_urls st;
     sink_log := sink_log st ++ handed; visited := visited st |}.

(** How a call ended: normally, or with an exception leaving it. *)
Inductive outcome := Returned | Raised.

Section WithLibraries.
Variable urljoin : string -> string -> string.
Variable sha256_hex : string -> string.

(** The body of [for product_url in product_urls] in [scrape_category].
    Its [except Exception] clause has nothing to catch:
    [extract_product_data] and [upsert_product] each end in a
    catch-all of their own. *)
Definition process_product (cw : category_world) (st : crawl_state)
    (product_url : string) : crawl_state :=
  if bool_decide (product_url ∈ scraped_urls st) then st
  else
    match extract_product_data urljoin sha256_hex (cw_product cw product_url) product_url with
    | Some product_data =>
        if negb (is_empty (pr_title product_data)) then
          if upsert_product cw product_data
          then mark_scraped product_url product_data st
          else mark_failed product_url [(product_data, false)] st
        else mark_failed product_url [] st
    | None => mark_failed product_url [] st
    end.

(** The ways [process_product] can go. *)
Inductive step_kind (cw : category_world) (st : crawl_state) (url : string)
    : crawl_state -> Prop :=
| StepSkipped :
    url ∈ scraped_urls st -> step_kind cw st url st
| StepSaved r :
    url ∉ scraped_urls st ->
    extract_product_data urljoin sha256_hex (cw_product cw url) url = Some r ->
    pr_title r <> EmptyString -> cw_upsert_ok cw r = true ->
    step_kind cw st url (mark_scraped url r st)
| StepRejected r :
    url ∉ scraped_urls st ->
    extract_product_data urljoin sha256_hex (cw_product cw url) url = Some r ->
    pr_title r <> EmptyString -> cw_upsert_ok cw r = false ->
    step_kind cw st url (mark_failed url [(r, false)] st)
| StepBlankTitle r :
    url ∉ scraped_urls st ->
    extract_product_data urljoin sha256_hex (cw_product cw url) url = Some r ->
    pr_title r = EmptyString ->
    step_kind cw st url (mark_failed url [] st)
| StepNoRecord :
    url ∉ scraped_urls st ->
    extract_product_data urljoin sha256_hex (cw_product cw url) url = None ->
    step_kind cw st url (mark_failed url [] st).

(** [scrape_category(category_url, browser, max_products)].  The
    [try ... finally] around the body only closes the page. *)
Definition scrape_category (cw : category_world) (category_url : string)
    (max_products : option Z) (st : crawl_state) : crawl_state * outcome :=
  let st := note_visit category_url st in
  if negb (cw_goto_ok cw) then (st, Raised)
  else
    match Walker.scroll_and_load_products (cw_page cw) 50 max_products with
    | None => (st, Raised)
    | Some product_urls => (foldl (process_product cw) st product_urls, Returned)
    end.

(** The [for category_url in category_urls] loop of [run]; [world i] is
    what the [i]-th call of [scrape_category] meets.  The enclosing
    [try ... finally] only closes the browser. *)
Fixpoint run_from (world : nat -> category_world) (i : nat)
    (category_urls : list string) (max_products_per_category : option Z)
    (st : crawl_state) : crawl_state * outcome :=
  match category_urls with
  | [] => (st, Returned)
  | category_url :: rest =>
      match scrape_category (world i) category_url max_products_per_category st with
      | (st', Returned) => run_from world (S i) rest max_products_per_category st'
      | (st', Raised) => (st', Raised)
      end
  end.

(** [run(category_urls, max_products_per_category)] on a fresh scraper. *)
Definition run (world : nat -> category_world) (category_urls : list string)
    (max_products_per_category : option Z) : crawl_state * outcome :=
  run_from world 0 category_urls max_products_per_category crawl_init.

End WithLibraries.

(** *** The run, read off the outside world *)

(** The product URLs category [i] lists (none if its walk raises). *)
Definition listing (world : nat -> category_world) (max_products : option Z)
    (i : nat) : list string :=
  default [] (Walker.scroll_and_load_products (cw_page (world i)) 50 max_products).



(** *** The specification's statements about a run *)



(** *** Sample worlds *)

Definition jeans_url : string := "https://www.ae.com/us/en/p/men/jeans/0001".

(** A category that lists the jeans, whose page is [pp], and whose sink
    answers [sink_ok]. *)
Definition jeans_category (pp : product_page) (sink_ok : bool) : category_world :=
  {| cw_goto_ok := true;
     cw_page := fun _ => Some {| Walker.height := 1000;
                                 Walker.anchors := [Walker.link "/us/en/p/men/jeans/0001"] |};
     cw_product := fun _ => pp;
     cw_upsert_ok := fun _ => sink_ok |}.


(** The jeans are listed under two categories; the sink rejects the
    first write and accepts the second. *)
Definition retry_world : nat -> category_world :=
  fun i => jeans_category (jeans_page hosted_image EmbedRaises)
             (match i with O => false | _ => true end).


End Orchestrator.

(** ** The entry points: [main] and the test script *)

Module Main.
Import Orchestrator.

(** [TEST_MODE = '--test' in sys.argv or 'test' in sys.argv]. *)
Definition TEST_MODE (argv : list string) : bool :=
  bool_decide ("--test" ∈ argv) || bool_decide ("test" ∈ argv).

(** [MAX_PRODUCTS = 5 if TEST_MODE else None]. *)
Definition MAX_PRODUCTS (argv : list string) : option Z :=
  if TEST_MODE argv then Some 5 else None.

(** The one category both entry points crawl. *)
Definition category_urls : list string :=
  ["https://www.ae.com/us/en/c/men/mens?pagetype=clp"].

Section WithLibraries.
Variable urljoin : string -> string -> string.
Variable sha256_hex : string -> string.

(** [main()], once the scraper object is built. *)
Definition main (argv : list string) (world : nat -> category_world)
    : crawl_state * outcome :=
  run urljoin sha256_hex world category_urls (MAX_PRODUCTS argv).

(** [test_scraper()] of the test script: the same run, capped at 3. *)
Definition test_scraper (world : nat -> category_world) : crawl_state * outcome :=
  run urljoin sha256_hex world category_urls (Some 3).

End WithLibraries.

End Main.

(** ** What a walk saw and what a run wrote *)

Module Views.
Import Text Walker Extractor Orchestrator.

(** The page showed the product link [u] in one of its first [n]
    iterations. *)
Definition seen (pg : page) (n : nat) (u : string) : Prop :=
  exists i o, (i < n)%nat /\ pg i = Some o /\ u ∈ current_urls o.

(** The renderer never raises. *)
Definition always_renders (pg : page) : Prop := forall i, is_Some (pg i).

(** Every iteration reads the height [h]. *)
Definition constant_height (pg : page) (h : Z) : Prop :=
  forall i, exists o, pg i = Some o /\ height o = h.

(** How many iterations a page of constant height [h] is given: the
    first reading differs from the initial 0 unless [h] is 0, and three
    equal readings must follow. *)
Definition patience (h : Z) : nat := if h =? 0 then 3%nat else 4%nat.

(** The product URLs of the records the sink accepted, in call order. *)
Definition accepted_urls (log : list (product_record * bool)) : list string :=
  map (fun e => pr_product_url (fst e)) (List.filter snd log).

(** The product URLs of the records the sink rejected. *)
Definition rejected_urls (log : list (product_record * bool)) : list string :=
  map (fun e => pr_product_url (fst e)) (List.filter (fun e => negb (snd e)) log).

(** The two sets agree with what the sink answered: the saved URLs are
    those of the accepted writes, no URL was accepted twice, and a URL
    whose write was rejected is marked failed. *)
Definition ledger_consistent (st : crawl_state) : Prop :=
  (forall u, u ∈ scraped_urls st <-> u ∈ accepted_urls (sink_log st))
  /\ NoDup (accepted_urls (sink_log st))
  /\ (forall u, u ∈ rejected_urls (sink_log st) -> u ∈ failed_urls st).

(** The sample of failures in the run's summary:
    [list(self.failed_urls)[:10]]. *)
Definition failed_sample (st : crawl_state) : list string :=
  take 10 (elements (failed_urls st)).

(** A listing of four products on a page of fixed height. *)
Definition listing_of_four : page :=
  fun _ => Some {| height := 1000;
                   anchors := [link "/us/en/p/men/jeans/0001";
                               link "/us/en/p/men/shirts/0002";
                               link "/us/en/p/men/shoes/0003";
                               link "/us/en/p/men/hats/0004"] |}.

End Views.

(** * Properties of the listing walker *)

Module WalkerProofs.
Import Text Walker.

#[local] Arguments cap_reached : simpl never.

(** ** The inner loop *)

Lemma add_unique_elem max_products cur acc x :
  x ∈ add_unique max_products cur acc -> x ∈ acc \/ x ∈ cur.
Proof.
  revert acc. induction cur as [|u rest IH]; intros acc Hx; simpl in Hx.
  - by left.
  - case_bool_decide.
    + destruct (IH _ Hx); [by left | right; by constructor].
    + destruct (cap_reached max_products (acc ++ [u])).
      * apply elem_of_app in Hx as [?|Hu]; [by left|].
        apply list_elem_of_singleton in Hu as ->. right. by constructor.
      * destruct (IH _ Hx) as [Hin|?]; [|right; by constructor].
        apply elem_of_app in Hin as [?|Hu]; [by left|].
        apply list_elem_of_singleton in Hu as ->. right. by constructor.
Qed.

Lemma add_unique_NoDup max_products cur acc :
  NoDup acc -> NoDup (add_unique max_products cur acc).
Proof.
  revert acc. induction cur as [|u rest IH]; intros acc Hnd; simpl; [done|].
  case_bool_decide; [by apply IH|].
  assert (NoDup (acc ++ [u])).
  { apply NoDup_app. split_and!; [done| |apply NoDup_singleton].
    intros x Hx Hu. apply list_elem_of_singleton in Hu as ->. done. }
  destruct (cap_reached max_products (acc ++ [u])); [done|by apply IH].
Qed.

Lemma cap_not_reached m urls :
  m <> 0 -> cap_reached (Some m) urls = false -> Z.of_nat (length urls) < m.
Proof. unfold cap_reached. intros Hm H. destruct (Z.eqb_spec m 0); [done|]. simpl in H. lia. Qed.

Lemma add_unique_length m cur acc :
  m <> 0 -> Z.of_nat (length acc) < m ->
  Z.of_nat (length (add_unique (Some m) cur acc)) <= m.
Proof.
  intros Hm. revert acc. induction cur as [|u rest IH]; intros acc Hlt; simpl; [lia|].
  case_bool_decide; [by apply IH|].
  destruct (cap_reached (Some m) (acc ++ [u])) eqn:Hcap.
  - rewrite length_app, Nat2Z.inj_add. change (length [u]) with 1%nat. lia.
  - apply IH. by apply cap_not_reached.
Qed.


(** ** The outer loop *)

Section Loop.
Variables (pg : page) (max_scrolls : Z) (max_products : option Z).

Lemma walk_body_urls o st :
  product_urls (body_state max_products o st)
  = add_unique max_products (current_urls o) (product_urls st).
Proof. unfold body_state, walk_body. repeat case_match; simplify_eq; done. Qed.

Lemma walk_body_iterations o st :
  iterations (body_state max_products o st) = S (iterations st).
Proof. unfold body_state, walk_body. repeat case_match; simplify_eq; done. Qed.

(** Invariant rule for the [while] loop: [Inv] holds whenever the loop
    condition is tested, [Post] of every way the loop can end. *)
Lemma walk_loop_inv (Inv : walk_state -> Prop) (Post : loop_result -> Prop) :
  Post OutOfFuel ->
  (forall st, Inv st -> max_scrolls <= scroll_attempts st -> Post (Stopped AttemptCap st)) ->
  (forall st, Inv st -> scroll_attempts st < max_scrolls ->
     pg (iterations st) = None -> Post (RendererError st)) ->
  (forall st o, Inv st -> scroll_attempts st < max_scrolls ->
     pg (iterations st) = Some o ->
     match walk_body max_products o st with
     | inl (why, st') => Post (Stopped why st')
     | inr st' => Inv st'
     end) ->
  forall fuel st, Inv st -> Post (walk_loop fuel pg max_scrolls max_products st).
Proof.
  intros Hfuel Hcap Herr Hbody. induction fuel as [|fuel IH]; intros st Hst; simpl.
  - destruct (Z.ltb_spec (scroll_attempts st) max_scrolls); [done|by apply Hcap].
  - destruct (Z.ltb_spec (scroll_attempts st) max_scrolls); [|by apply Hcap].
    destruct (pg (iterations st)) as [o|] eqn:Ho; [|by apply Herr].
    specialize (Hbody st o Hst ltac:(done) Ho).
    destruct (walk_body max_products o st) as [[why st']|st']; [done|by apply IH].
Qed.

(** The loop variant: [max_scrolls - scroll_attempts]. *)
Lemma walk_body_attempts o st st' :
  walk_body max_products o st = inr st' ->
  scroll_attempts st' = scroll_attempts st + 1.
Proof. unfold walk_body. repeat case_match; intros; simplify_eq; done. Qed.

Lemma walk_loop_fuel fuel st :
  (Z.to_nat (max_scrolls - scroll_attempts st) <= fuel)%nat ->
  walk_loop fuel pg max_scrolls max_products st <> OutOfFuel.
Proof.
  revert st. induction fuel as [|fuel IH]; intros st Hfuel; simpl.
  - destruct (Z.ltb_spec (scroll_attempts st) max_scrolls); [lia|done].
  - destruct (Z.ltb_spec (scroll_attempts st) max_scrolls); [|done].
    destruct (pg (iterations st)) as [o|]; [|done].
    destruct (walk_body max_products o st) as [[why st']|st'] eqn:Hb; [done|].
    apply IH. apply walk_body_attempts in Hb. lia.
Qed.

(** More fuel than needed changes nothing. *)
Lemma walk_loop_more_fuel fuel fuel' st :
  walk_loop fuel pg max_scrolls max_products st <> OutOfFuel ->
  (fuel <= fuel')%nat ->
  walk_loop fuel' pg max_scrolls max_products st
  = walk_loop fuel pg max_scrolls max_products st.
Proof.
  revert fuel' st. induction fuel as [|fuel IH]; intros fuel' st Hne Hle.
  - simpl in *. destruct fuel'; simpl; [done|].
    destruct (scroll_attempts st <? max_scrolls); done.
  - destruct fuel' as [|fuel']; [lia|]. simpl in *.
    destruct (scroll_attempts st <? max_scrolls); [|done].
    destruct (pg (iterations st)) as [o|]; [|done].
    destruct (walk_body max_products o st) as [[why st']|st']; [done|].
    apply IH; [done|lia].
Qed.

End Loop.

Lemma walk_fuel_enough pg max_scrolls max_products :
  walk pg max_scrolls max_products <> OutOfFuel.
Proof. apply walk_loop_fuel. simpl. lia. Qed.

Lemma to_url_list_elem urls u : u ∈ to_url_list urls <-> u ∈ urls.
Proof. unfold to_url_list. rewrite elem_of_elements, elem_of_list_to_set. done. Qed.

Lemma to_url_list_NoDup urls : NoDup (to_url_list urls).
Proof. unfold to_url_list. apply NoDup_elements. Qed.

Lemma to_url_list_length urls : (length (to_url_list urls) <= length urls)%nat.
Proof.
  apply submseteq_length, NoDup_submseteq; [apply to_url_list_NoDup|].
  intros x. by rewrite to_url_list_elem.
Qed.

(** ** What the walk returns *)



(** C7, amended.  With a cap of at least one, the walker never returns
    more URLs than the cap, whatever the page shows. *)
Theorem walker_honours_positive_cap pg max_scrolls m urls :
  1 <= m ->
  scroll_and_load_products pg max_scrolls (Some m) = Some urls ->
  Z.of_nat (length urls) <= m.
Proof.
  intros Hm. unfold scroll_and_load_products, walk.
  pose proof (walk_loop_inv pg max_scrolls (Some m)
    (fun st => Z.of_nat (length (product_urls st)) < m)
    (fun r => match r with
              | Stopped _ st => Z.of_nat (length (product_urls st)) <= m
              | _ => True
              end)) as Hinv.
  specialize (Hinv I ltac:(simpl; intros; lia) ltac:(done)).
  match type of Hinv with (?B -> _) => assert B as Hbody end.
  { intros st o Hst _ _.
    pose proof (add_unique_length m (current_urls o) (product_urls st) ltac:(lia) Hst) as Hlen.
    unfold walk_body.
    destruct (cap_reached _ _) eqn:Hcap; [done|].
    apply cap_not_reached in Hcap; [|lia].
    repeat case_match; simplify_eq; simpl; lia. }
  specialize (Hinv Hbody (Z.to_nat max_scrolls) walk_init ltac:(simpl; lia)).
  destruct (walk_loop _ _ _ _ _) as [why st| |]; [|done..].
  intros [= <-]. pose proof (to_url_list_length (product_urls st)). lia.
Qed.

(** ** Termination *)

Lemma walk_iterations_bounded pg max_scrolls max_products fuel :
  match walk_loop fuel pg max_scrolls max_products walk_init with
  | Stopped _ st => (iterations st <= Z.to_nat max_scrolls)%nat
  | RendererError st => (S (iterations st) <= Z.to_nat max_scrolls)%nat
  | OutOfFuel => True
  end.
Proof.
  apply (walk_loop_inv pg max_scrolls max_products
    (fun st => Z.of_nat (iterations st) = scroll_attempts st
               /\ scroll_attempts st <= Z.max 0 max_scrolls)).
  - done.
  - intros st [? ?] ?. lia.
  - intros st [? ?] ? _. lia.
  - intros st o [? ?] ? _. unfold walk_body. repeat case_match; simplify_eq; simpl; lia.
  - simpl. lia.
Qed.

Lemma walk_of_growing_page pg max_scrolls fuel :
  grows_forever pg ->
  match walk_loop fuel pg max_scrolls None walk_init with
  | Stopped why st => why = AttemptCap /\ iterations st = Z.to_nat max_scrolls
  | RendererError _ => False
  | OutOfFuel => True
  end.
Proof.
  intros Hpg.
  apply (walk_loop_inv pg max_scrolls None
    (fun st => Z.of_nat (iterations st) = scroll_attempts st
               /\ scroll_attempts st <= Z.max 0 max_scrolls
               /\ prev_height pg (iterations st) = Some (last_height st))).
  - done.
  - intros st (? & ? & _) ?. split; [done|lia].
  - intros st _ _ Hnone. destruct (Hpg (iterations st)) as (o & h & Ho & _). congruence.
  - intros st o (? & ? & Hprev) ? Ho.
    destruct (Hpg (iterations st)) as (o' & h & Ho' & Hh & Hlt).
    assert (o' = o) as -> by congruence. assert (h = last_height st) as -> by congruence.
    unfold walk_body. change (cap_reached None _) with false. cbv iota.
    destruct (Z.eqb_spec (height o) (last_height st)); [lia|].
    simpl. rewrite Ho. simpl. split_and!; [lia|lia|done].
  - simpl. split_and!; [done|lia|done].
Qed.

(** C9.  The walk always ends, and within [max_scrolls] iterations:
    [max_scrolls] unrollings of the loop are enough, spare fuel changes
    nothing, the number of iterations is at most [max_scrolls], and on a
    page that grows at every iteration, with no product cap, the walk
    returns after exactly [max_scrolls] iterations. *)
Theorem walker_terminates_within_attempt_cap pg max_scrolls max_products :
  walk pg max_scrolls max_products <> OutOfFuel
  /\ (forall fuel, (Z.to_nat max_scrolls <= fuel)%nat ->
        walk_loop fuel pg max_scrolls max_products walk_init
        = walk pg max_scrolls max_products)
  /\ (exists n, walk_iterations pg max_scrolls max_products = Some n
                /\ (n <= Z.to_nat max_scrolls)%nat)
  /\ (grows_forever pg ->
        (exists urls, scroll_and_load_products pg max_scrolls None = Some urls)
        /\ walk_iterations pg max_scrolls None = Some (Z.to_nat max_scrolls)).
Proof.
  pose proof (walk_fuel_enough pg max_scrolls max_products) as Hfuel.
  split_and!.
  - done.
  - intros fuel Hle. by apply walk_loop_more_fuel.
  - pose proof (walk_iterations_bounded pg max_scrolls max_products (Z.to_nat max_scrolls)) as Hb.
    unfold walk_iterations, walk in *.
    destruct (walk_loop _ _ _ _ _); [eauto..|done].
  - intros Hpg.
    pose proof (walk_of_growing_page pg max_scrolls (Z.to_nat max_scrolls) Hpg) as Hg.
    pose proof (walk_fuel_enough pg max_scrolls None) as Hfuel'.
    unfold scroll_and_load_products, walk_iterations, walk in *.
    destruct (walk_loop _ _ _ None _) as [why st| |]; [|done..].
    destruct Hg as [_ ->]. eauto.
Qed.

(** ** Why the walk stops *)

Lemma last_three_spec P n :
  last_three P n = true <->
  (3 <= n)%nat /\ P (n - 3)%nat = true /\ P (n - 2)%nat = true /\ P (n - 1)%nat = true.
Proof.
  destruct n as [|[|[|k]]]; simpl; [split; [done|lia]..|].
  rewrite !andb_true_iff, Nat.sub_0_r. split; [intros [[? ?] ?]|intros (_ & ? & ? & ?)].
  - split_and!; [lia|done..].
  - done.
Qed.

#[local] Arguments last_three : simpl never.

Lemma walk_inv_init pg max_scrolls max_products :
  walk_inv pg max_scrolls max_products walk_init.
Proof.
  split; simpl; try done; try lia.
  intros k Hk%last_three_spec. lia.
Qed.

Lemma walk_inv_exit pg max_scrolls max_products st :
  walk_inv pg max_scrolls max_products st ->
  max_scrolls <= scroll_attempts st ->
  stop_justified pg max_scrolls max_products AttemptCap st.
Proof.
  intros [] Hge. unfold stop_justified. split_and!.
  - intros k Hk. apply inv_no_three0 in Hk. lia.
  - lia.
  - lia.
  - destruct (last_three _ _) eqn:Hk; [|done]. apply inv_no_three0 in Hk. lia.
  - done.
Qed.

Lemma unchanged_here pg st o :
  prev_height pg (iterations st) = Some (last_height st) ->
  pg (iterations st) = Some o ->
  unchanged pg (iterations st) = (height o =? last_height st).
Proof. intros Hprev Ho. unfold unchanged. by rewrite Ho, Hprev. Qed.

Lemma walk_inv_body pg max_scrolls max_products st o :
  walk_inv pg max_scrolls max_products st ->
  scroll_attempts st < max_scrolls ->
  pg (iterations st) = Some o ->
  match walk_body max_products o st with
  | inl (why, st') => stop_justified pg max_scrolls max_products why st'
  | inr st' => walk_inv pg max_scrolls max_products st'
  end.
Proof.
  intros [] Hlt Ho.
  pose proof (unchanged_here pg st o inv_last_height0 Ho) as Hun.
  set (n := iterations st) in *. set (c := no_change_count st) in *.
  assert (forall k, last_three (unchanged pg) k = true -> (S n <= k)%nat) as Hno
    by (intros k Hk; apply inv_no_three0 in Hk; lia).
  unfold walk_body, stop_justified. fold n c.
  destruct (cap_reached max_products (add_unique _ _ _)) eqn:Hcap.
  { split_and!; simpl; fold n; [done|lia|done]. }
  destruct (Z.eqb_spec (height o) (last_height st)) as [Heq|Hne].
  - destruct (Z.leb_spec 3 (c + 1)) as [Hthree|Hfew].
    + (* the third unchanged reading in a row *)
      assert (c = 2) as Hc by lia.
      split_and!; simpl; fold n; [done|lia| |done].
      apply last_three_spec. rewrite Hc in *.
      split_and!; [lia|apply inv_run0; lia..|].
      by replace (S n - 1)%nat with n by lia.
    + split; simpl; fold n; try done; try lia.
      * by rewrite Ho.
      * intros j Hj. destruct (decide (j = n)) as [->|]; [done|]. apply inv_run0. lia.
      * intros Hcn.
        replace (S n - Z.to_nat (c + 1) - 1)%nat with (n - Z.to_nat c - 1)%nat by lia.
        apply inv_run_start0. lia.
      * intros k Hk. pose proof (Hno k Hk) as Hle.
        destruct (decide (k = S n)) as [->|]; [|lia].
        apply last_three_spec in Hk as (Hn3 & H3 & H2 & H1).
        assert ((Z.to_nat c < n)%nat) as Hcn by lia.
        specialize (inv_run_start0 Hcn).
        assert (c = 0 \/ c = 1) as [Hc|Hc] by lia; rewrite Hc in *.
        -- replace (n - Z.to_nat 0 - 1)%nat with (S n - 2)%nat in inv_run_start0 by lia.
           congruence.
        -- replace (n - Z.to_nat 1 - 1)%nat with (S n - 3)%nat in inv_run_start0 by lia.
           congruence.
  - split; simpl; fold n; try done; try lia.
    * by rewrite Ho.
    * intros _. by rewrite Nat.sub_0_r.
    * intros k Hk. pose proof (Hno k Hk) as Hle.
      destruct (decide (k = S n)) as [->|]; [|lia].
      apply last_three_spec in Hk as (_ & _ & _ & H1).
      replace (S n - 1)%nat with n in H1 by lia. congruence.
Qed.

Lemma walk_loop_justified pg max_scrolls max_products fuel :
  match walk_loop fuel pg max_scrolls max_products walk_init with
  | Stopped why st => stop_justified pg max_scrolls max_products why st
  | _ => True
  end.
Proof.
  apply (walk_loop_inv pg max_scrolls max_products
           (walk_inv pg max_scrolls max_products)).
  - done.
  - apply walk_inv_exit.
  - done.
  - apply walk_inv_body.
  - apply walk_inv_init.
Qed.

(** A [break] does not depend on the attempt cap. *)
Lemma walk_loop_break_stable pg max_scrolls max_scrolls' max_products fuel st why st' :
  walk_loop fuel pg max_scrolls max_products st = Stopped why st' ->
  why <> AttemptCap -> max_scrolls <= max_scrolls' ->
  walk_loop fuel pg max_scrolls' max_products st = Stopped why st'.
Proof.
  intros Hrun Hwhy Hle. revert st Hrun.
  induction fuel as [|fuel IH]; intros st; simpl.
  - destruct (Z.ltb_spec (scroll_attempts st) max_scrolls); [done|congruence].
  - destruct (Z.ltb_spec (scroll_attempts st) max_scrolls); [|congruence].
    destruct (Z.ltb_spec (scroll_attempts st) max_scrolls'); [|lia].
    destruct (pg (iterations st)) as [o|]; [|done].
    destruct (walk_body max_products o st) as [[? ?]|?]; [done|apply IH].
Qed.

(** C8, amended.  Whenever the walk stops, it is for one of three
    reasons, and for the first that applies: the product cap is reached;
    or the last three iterations each read the height read just before
    (the first against 0); or [max_scrolls] iterations were made.  Three
    unchanged readings in a row end the walk whatever the attempt cap,
    and a stop by one of the first two reasons is the same under any
    larger attempt cap. *)
Theorem walker_stop_conditions pg max_scrolls max_products why st :
  walk pg max_scrolls max_products = Stopped why st ->
  stop_justified pg max_scrolls max_products why st
  /\ (why <> AttemptCap -> forall max_scrolls', max_scrolls <= max_scrolls' ->
        walk pg max_scrolls' max_products = Stopped why st).
Proof.
  intros Hrun. split.
  - pose proof (walk_loop_justified pg max_scrolls max_products (Z.to_nat max_scrolls)) as H.
    unfold walk in Hrun. by rewrite Hrun in H.
  - intros Hwhy ms' Hle. unfold walk in *.
    pose proof (walk_loop_break_stable _ _ ms' _ _ _ _ _ Hrun Hwhy Hle) as Hst.
    rewrite <- Hst. apply walk_loop_more_fuel; [congruence|lia].
Qed.

(** ** The walk on the sample listings *)



(** C7 as stated fails: a cap of 0 counts as no cap, and the walk
    returns both products of the listing. *)
Lemma walker_ignores_zero_cap :
  exists urls, scroll_and_load_products listing_of_two 50 (Some 0) = Some urls
               /\ ~ (Z.of_nat (length urls) <= 0).
Proof.
  eexists. split; [vm_compute; reflexivity|]. simpl. lia.
Qed.

Lemma walker_honours_positive_cap_witness :
  Z.of_nat (length ["https://www.ae.com/us/en/p/men/jeans/0001"]) <= 1.
Proof.
  apply (walker_honours_positive_cap listing_of_two 50 1).
  - lia.
  - vm_compute. reflexivity.
Defined.

(** C8 as stated fails: on the shrinking page iterations 1, 2 and 3 read
    no larger a height than the one before, yet the walk goes on to the
    attempt cap, as each reading differs from the last. *)
Lemma walker_goes_on_while_height_shrinks :
  ~ stops_when_height_fails_to_increase shrinking_page 50 None.
Proof.
  intros Hclaim.
  specialize (Hclaim 4%nat 50%nat ltac:(vm_compute; reflexivity) ltac:(vm_compute; reflexivity)).
  lia.
Qed.

Lemma walker_stop_conditions_witness :
  stop_justified still_page 50 None NoGrowth
    {| product_urls := []; last_height := 0; scroll_attempts := 2;
       no_change_count := 3; iterations := 3 |}
  /\ (NoGrowth <> AttemptCap -> forall max_scrolls', 50 <= max_scrolls' ->
        walk still_page max_scrolls' None
        = Stopped NoGrowth
            {| product_urls := []; last_height := 0; scroll_attempts := 2;
               no_change_count := 3; iterations := 3 |}).
Proof.
  apply (walker_stop_conditions still_page 50 None).
  vm_compute. reflexivity.
Defined.

Lemma walker_terminates_within_attempt_cap_witness :
  walk_iterations growing_page 50 None = Some 50%nat.
Proof.
  destruct (walker_terminates_within_attempt_cap growing_page 50 None)
    as (_ & _ & _ & Hgrow).
  apply Hgrow. intros i. unfold growing_page.
  destruct i as [|i]; eexists _, _; (split_and!; [reflexivity|reflexivity|simpl; lia]).
Defined.

End WalkerProofs.

(** * Properties of the string primitives *)

Module TextProofs.
Import Text.

#[local] Arguments String.append : simpl nomatch.

Lemma is_empty_true s : is_empty s = true <-> s = EmptyString.
Proof. destruct s; simpl; split; congruence. Qed.



Lemma span_spec p s :
  s = fst (span p s) +:+ snd (span p s)
  /\ all_chars p (fst (span p s)) = true
  /\ starts_with_char p (snd (span p s)) = false.
Proof.
  induction s as [|c s IH]; simpl; [done|].
  destruct (p c) eqn:Hc; simpl; [|done].
  destruct (span p s) as [a r]; simpl in *. destruct IH as (-> & -> & ->).
  by rewrite Hc.
Qed.





(** *** Strings without digits stay so *)








(** *** [float] *)





(** *** Removing the first comma *)




End TextProofs.

(** * Properties of the product extractor *)

Module ExtractorProofs.
Import Text Extractor TextProofs.

#[local] Arguments String.append : simpl nomatch.

Lemma all_chars_app p a b : all_chars p (a +:+ b) = all_chars p a && all_chars p b.
Proof. induction a as [|c a IH]; simpl; [done|]. by rewrite IH, andb_assoc. Qed.


(** ** Price parsing *)





(** The text handed to [float] is made of digits, commas and dots. *)
Lemma all_chars_weaken (p q : ascii -> bool) s :
  (forall c, p c = true -> q c = true) -> all_chars p s = true -> all_chars q s = true.
Proof.
  intros Hpq. induction s as [|c s IH]; simpl; [done|].
  intros [Hc Hs]%andb_true_iff. by rewrite (Hpq c Hc), IH.
Qed.

Lemma all_chars_replace_first_comma p s :
  all_chars p s = true -> all_chars p (js_replace_first_comma s) = true.
Proof.
  induction s as [|c s IH]; simpl; [done|]. intros [Hc Hs]%andb_true_iff.
  destruct (Ascii.eqb c ","%char); simpl; [done|]. by rewrite Hc, IH.
Qed.

Lemma js_price_text_alphabet text : all_chars price_char (js_price_text text) = true.
Proof.
  unfold js_price_text, js_price_match.
  destruct (drop_until _ _) as [t|]; [|done].
  apply all_chars_replace_first_comma. unfold number_token.
  destruct (span_spec is_digit_or_comma t) as (_ & Ha & _).
  destruct (span is_digit_or_comma t) as [a r]; simpl in *.
  assert (all_chars price_char a = true) as Ha'.
  { apply (all_chars_weaken is_digit_or_comma); [|done].
    intros c Hc. unfold price_char. by rewrite Hc. }
  destruct r as [|c r']; [done|].
  destruct c as [[] [] [] [] [] [] [] []]; try done.
  destruct (span_spec is_digit r') as (_ & Hb & _).
  destruct (span is_digit r') as [b r'']; simpl in *.
  rewrite all_chars_app, Ha'. simpl.
  apply (all_chars_weaken is_digit); [|done].
  intros c Hc. unfold price_char, is_digit_or_comma. by rewrite Hc.
Qed.




End ExtractorProofs.

(** * Properties of extraction and of the crawl *)

Module OrchestratorProofs.
Import Text Extractor Orchestrator TextProofs.

Section WithLibraries.
Variable urljoin : string -> string -> string.
Variable sha256_hex : string -> string.

Abbreviation extract := (extract_product_data urljoin sha256_hex).
Abbreviation process := (process_product urljoin sha256_hex).
Abbreviation step := (step_kind urljoin sha256_hex).

(** ** What a returned record is made of *)

Lemma js_title_nonempty els t : js_title els = Some t -> is_empty t = false.
Proof.
  induction els as [|[x|] els IH]; simpl; [done| |done].
  destruct (is_empty (js_trim x)) eqn:He; [done|]. by intros [= <-].
Qed.


Lemma extract_some pp url r :
  extract pp url = Some r ->
  exists t price image_url,
    pp_goto_ok pp = true
    /\ js_title (dom_title_els (pp_dom pp)) = Some t
    /\ t <> EmptyString
    /\ js_image_url (pp_dom pp) <> EmptyString
    /\ parse_price (jd_price_text (extract_script (pp_dom pp))) = Some price
    /\ full_image_url urljoin (js_image_url (pp_dom pp)) = Some image_url
    /\ pr_title r = py_strip t
    /\ pr_image_url r = image_url
    /\ pr_product_url r = url
    /\ pr_embedding r = generate_embedding (pp_embed pp image_url).
Proof.
  unfold extract_product_data. simpl.
  destruct (pp_goto_ok pp); simpl; [|done].
  destruct (js_title _) as [t|] eqn:Ht; [|done].
  pose proof (js_title_nonempty _ _ Ht) as Hne. rewrite Hne.
  destruct (is_empty (js_image_url _)) eqn:Hi; [done|].
  destruct (parse_price _) as [price|]; [|done].
  destruct (full_image_url _ _) as [image_url|]; [|done].
  intros [= <-]. exists t, price, image_url. simpl.
  split_and!; try done.
  - intros ->. done.
  - intros Hu. by rewrite Hu in Hi.
Qed.


(** The embedding pipeline's answer decides the [embedding] field and
    nothing else. *)
Lemma extract_embed_irrelevant pp url e :
  without_embedding <$> extract (with_embed pp e) url
  = without_embedding <$> extract pp url.
Proof.
  unfold extract_product_data. simpl.
  destruct (pp_goto_ok pp); simpl; [|done].
  repeat case_match; done.
Qed.

(** ** One product *)

Lemma process_product_kind cw st url : step cw st url (process cw st url).
Proof.
  unfold process_product. case_bool_decide; [by constructor|].
  destruct (extract _ _) as [r|] eqn:Hr; [|by constructor].
  destruct (is_empty (pr_title r)) eqn:He; simpl.
  - apply is_empty_true in He. by eapply StepBlankTitle.
  - assert (pr_title r <> EmptyString) by (intros Ht; by rewrite Ht in He).
    unfold upsert_product. destruct (cw_upsert_ok cw r) eqn:Hok.
    + by apply StepSaved.
    + by apply StepRejected.
Qed.

(** What each way does to the two sets and to the sink log. *)
Lemma step_kind_sets cw st url st' :
  step cw st url st' ->
  (scraped_urls st' = scraped_urls st /\ failed_urls st' = failed_urls st)
  \/ ((url ∉ scraped_urls st) /\ scraped_urls st' = {[url]} ∪ scraped_urls st
      /\ failed_urls st' = failed_urls st)
  \/ ((url ∉ scraped_urls st) /\ scraped_urls st' = scraped_urls st
      /\ failed_urls st' = {[url]} ∪ failed_urls st).
Proof. destruct 1; simpl; eauto 10. Qed.



(** ** Growth of the two sets *)

Lemma process_product_mono cw st url :
  scraped_urls st ⊆ scraped_urls (process cw st url)
  /\ failed_urls st ⊆ failed_urls (process cw st url).
Proof.
  destruct (step_kind_sets _ _ _ _ (process_product_kind cw st url))
    as [[-> ->]|[(_ & -> & ->)|(_ & -> & ->)]]; set_solver.
Qed.

Lemma foldl_process_mono cw urls st :
  scraped_urls st ⊆ scraped_urls (foldl (process cw) st urls)
  /\ failed_urls st ⊆ failed_urls (foldl (process cw) st urls).
Proof.
  revert st. induction urls as [|u urls IH]; intros st; simpl; [done|].
  destruct (IH (process cw st u)) as [? ?].
  destruct (process_product_mono cw st u) as [? ?]. set_solver.
Qed.

Lemma scrape_category_mono cw c mp st :
  scraped_urls st ⊆ scraped_urls (fst (scrape_category urljoin sha256_hex cw c mp st))
  /\ failed_urls st ⊆ failed_urls (fst (scrape_category urljoin sha256_hex cw c mp st)).
Proof.
  unfold scrape_category. destruct (negb (cw_goto_ok cw)); simpl; [done|].
  destruct (Walker.scroll_and_load_products _ _ _) as [urls|]; simpl; [|done].
  apply (foldl_process_mono cw urls (note_visit c st)).
Qed.

Lemma run_from_mono world i cats mp st :
  scraped_urls st ⊆ scraped_urls (fst (run_from urljoin sha256_hex world i cats mp st))
  /\ failed_urls st ⊆ failed_urls (fst (run_from urljoin sha256_hex world i cats mp st)).
Proof.
  revert i st. induction cats as [|c cats IH]; intros i st; simpl; [done|].
  pose proof (scrape_category_mono (world i) c mp st) as [? ?].
  destruct (scrape_category _ _ _ _ _ _) as [st' []]; simpl in *; [|done].
  destruct (IH (S i) st') as [? ?]. set_solver.
Qed.

(** C10.  The success set and the failure set only grow: a product step
    leaves both unchanged or adds its URL to exactly one of them; no step,
    category or run removes a URL from either; so a URL once in the
    failure set is still there at the end of the run, whatever happens to
    it later. *)
Theorem sets_grow_monotonically :
  (forall cw st url,
     (scraped_urls (process cw st url) = scraped_urls st
      /\ failed_urls (process cw st url) = failed_urls st)
     \/ (scraped_urls (process cw st url) = {[url]} ∪ scraped_urls st
         /\ failed_urls (process cw st url) = failed_urls st)
     \/ (scraped_urls (process cw st url) = scraped_urls st
         /\ failed_urls (process cw st url) = {[url]} ∪ failed_urls st))
  /\ (forall world i cats mp st,
        scraped_urls st ⊆ scraped_urls (fst (run_from urljoin sha256_hex world i cats mp st))
        /\ failed_urls st ⊆ failed_urls (fst (run_from urljoin sha256_hex world i cats mp st)))
  /\ (forall world i cats mp st url,
        url ∈ failed_urls st ->
        url ∈ failed_urls (fst (run_from urljoin sha256_hex world i cats mp st))).
Proof.
  split_and!.
  - intros cw st url.
    destruct (step_kind_sets _ _ _ _ (process_product_kind cw st url))
      as [?|[(_ & ? & ?)|(_ & ? & ?)]]; eauto.
  - apply run_from_mono.
  - intros world i cats mp st url Hin.
    destruct (run_from_mono world i cats mp st) as [_ Hsub]. by apply Hsub.
Qed.

(** ** Disjointness of the two sets *)




(** ** Records and the sink *)



(** C4.  A vector whose length is not 768 counts as no embedding: the
    extractor returns the record it would return for any other answer of
    the embedding pipeline, with the embedding left out, and that record
    goes to the sink and is saved if the sink accepts it. *)
Theorem dimension_mismatch_keeps_record cw st url v :
  length v <> 768%nat ->
  (forall image_url, pp_embed (cw_product cw url) image_url = EmbedVector v) ->
  generate_embedding (EmbedVector v) = None
  /\ (forall e,
        extract (cw_product cw url) url
        = without_embedding <$> extract (with_embed (cw_product cw url) e) url)
  /\ (forall e r,
        extract (with_embed (cw_product cw url) e) url = Some r ->
        pr_title r <> EmptyString -> (url ∉ scraped_urls st) ->
        sink_log (process cw st url)
        = sink_log st ++ [(without_embedding r, cw_upsert_ok cw (without_embedding r))]
        /\ (cw_upsert_ok cw (without_embedding r) = true ->
            url ∈ scraped_urls (process cw st url)
            /\ failed_urls (process cw st url) = failed_urls st)).
Proof.
  intros Hlen Hembed.
  assert (generate_embedding (EmbedVector v) = None) as Hgen
    by (simpl; by rewrite bool_decide_eq_true_2).
  assert (forall e, extract (cw_product cw url) url
                    = without_embedding <$> extract (with_embed (cw_product cw url) e) url)
    as Hsame.
  { intros e. rewrite extract_embed_irrelevant.
    destruct (extract (cw_product cw url) url) as [r|] eqn:Hr; [|done]. simpl. f_equal.
    destruct (extract_some _ _ _ Hr) as (_ & _ & image & _ & _ & _ & _ & _ & _ & _ & _ & _ & He).
    rewrite Hembed, Hgen in He. destruct r; simpl in *. by rewrite He. }
  split_and!; [done|done|].
  intros e r Hr Htitle Hnew. specialize (Hsame e). rewrite Hr in Hsame. simpl in Hsame.
  unfold process_product. rewrite bool_decide_eq_false_2 by done. rewrite Hsame.
  destruct (is_empty (pr_title (without_embedding r))) eqn:He.
  { apply is_empty_true in He. done. }
  simpl. unfold upsert_product.
  destruct (cw_upsert_ok cw (without_embedding r)); simpl; [|done].
  split; [done|]. intros _. split; [set_solver|done].
Qed.

(** ** Categories *)






End WithLibraries.

(** ** The samples *)



(** A title that only Python strips: the record is returned with an
    empty title, and the orchestrator's own test keeps it from the sink. *)
Lemma blank_title_is_returned_but_not_persisted :
  exists r,
    extract_product_data urljoin_simple digest_stub separator_title_page jeans_url = Some r
    /\ pr_title r = EmptyString
    /\ sink_log (process_product urljoin_simple digest_stub
                   (jeans_category separator_title_page true) crawl_init jeans_url) = []
    /\ jeans_url ∈ failed_urls
         (process_product urljoin_simple digest_stub
            (jeans_category separator_title_page true) crawl_init jeans_url).
Proof. eexists. split_and!; vm_compute; reflexivity. Qed.

Lemma dimension_mismatch_keeps_record_witness :
  generate_embedding short_vector = None
  /\ exists r,
       sink_log (process_product urljoin_simple digest_stub
                   (jeans_category (jeans_page hosted_image short_vector) true)
                   crawl_init jeans_url) = [(r, true)]
       /\ pr_embedding r = None.
Proof.
  destruct (dimension_mismatch_keeps_record urljoin_simple digest_stub
              (jeans_category (jeans_page hosted_image short_vector) true)
              crawl_init jeans_url (replicate 512 0%Q))
    as (Hgen & _ & Hsink).
  - vm_compute. discriminate.
  - intros image_url. reflexivity.
  - split; [exact Hgen|].
    destruct (Hsink (fun _ => EmbedRaises) _ eq_refl) as [Hlog _].
    + vm_compute. discriminate.
    + vm_compute. intros [=].
    + eexists. split; [exact Hlog|reflexivity].
Defined.

Lemma sets_grow_monotonically_witness :
  jeans_url ∈ failed_urls
    (fst (run urljoin_simple digest_stub retry_world ["/c/men"; "/c/men/jeans"] None))
  /\ jeans_url ∈ scraped_urls
       (fst (run urljoin_simple digest_stub retry_world ["/c/men"; "/c/men/jeans"] None)).
Proof.
  destruct (sets_grow_monotonically urljoin_simple digest_stub) as (_ & _ & Hstay).
  split.
  - apply (Hstay retry_world 1%nat ["/c/men/jeans"] None
             (fst (run urljoin_simple digest_stub retry_world ["/c/men"] None))).
    vm_compute. reflexivity.
  - vm_compute. reflexivity.
Defined.





End OrchestratorProofs.

(** * Further properties of the listing walker *)

Module WalkerMore.
Import Text Walker Views WalkerProofs.

(** ** The accumulator *)

Lemma add_unique_keeps max_products cur acc x :
  x ∈ acc -> x ∈ add_unique max_products cur acc.
Proof.
  revert acc. induction cur as [|u rest IH]; intros acc Hx; simpl; [done|].
  case_bool_decide; [by apply IH|].
  assert (x ∈ acc ++ [u]) by (apply elem_of_app; by left).
  destruct (cap_reached max_products (acc ++ [u])); [done|by apply IH].
Qed.

Lemma add_unique_takes_all cur acc x :
  x ∈ cur -> x ∈ add_unique None cur acc.
Proof.
  revert acc. induction cur as [|u rest IH]; intros acc Hx; [by apply elem_of_nil in Hx|].
  simpl. apply elem_of_cons in Hx as [->|Hx].
  - case_bool_decide; apply add_unique_keeps; [done|].
    apply elem_of_app. right. by apply list_elem_of_singleton.
  - case_bool_decide; by apply IH.
Qed.

(** A property of the walk's variables that every pass of the loop body
    keeps holds when the loop stops. *)
Lemma walk_state_inv pg max_scrolls max_products (P : walk_state -> Prop) fuel st0 :
  P st0 ->
  (forall st o, P st -> scroll_attempts st < max_scrolls ->
     pg (iterations st) = Some o -> P (body_state max_products o st)) ->
  match walk_loop fuel pg max_scrolls max_products st0 with
  | Stopped _ st => P st
  | _ => True
  end.
Proof.
  intros H0 Hstep.
  apply (walk_loop_inv pg max_scrolls max_products P
           (fun r => match r with Stopped _ st => P st | _ => True end));
    [done|done|done| |done].
  intros st o Hst Hlt Ho. specialize (Hstep st o Hst Hlt Ho).
  unfold body_state in Hstep. by destruct (walk_body max_products o st) as [[? ?]|?].
Qed.

Lemma seen_mono pg n u : seen pg n u -> seen pg (S n) u.
Proof. intros (i & o & ? & ? & ?). exists i, o. split_and!; [lia|done..]. Qed.

Lemma walk_urls_seen pg max_scrolls max_products fuel :
  match walk_loop fuel pg max_scrolls max_products walk_init with
  | Stopped _ st => forall u, u ∈ product_urls st -> seen pg (iterations st) u
  | _ => True
  end.
Proof.
  apply (walk_state_inv pg max_scrolls max_products
           (fun st => forall u, u ∈ product_urls st -> seen pg (iterations st) u)).
  - simpl. intros u Hu. by apply elem_of_nil in Hu.
  - intros st o Hst _ Ho u. rewrite walk_body_urls, walk_body_iterations.
    intros [Hu|Hu]%add_unique_elem.
    + by apply seen_mono, Hst.
    + exists (iterations st), o. split_and!; [lia|done..].
Qed.

Lemma walk_seen_urls pg max_scrolls fuel :
  match walk_loop fuel pg max_scrolls None walk_init with
  | Stopped _ st => forall u, seen pg (iterations st) u -> u ∈ product_urls st
  | _ => True
  end.
Proof.
  apply (walk_state_inv pg max_scrolls None
           (fun st => forall u, seen pg (iterations st) u -> u ∈ product_urls st)).
  - simpl. intros u (i & o & Hi & _). lia.
  - intros st o Hst _ Ho u. rewrite walk_body_urls, walk_body_iterations.
    intros (i & o' & Hi & Ho' & Hu).
    destruct (decide (i = iterations st)) as [->|Hne].
    + assert (o' = o) as -> by congruence. by apply add_unique_takes_all.
    + apply add_unique_keeps, Hst. exists i, o'. split_and!; [lia|done..].
Qed.

Lemma walk_urls_NoDup pg max_scrolls max_products fuel :
  match walk_loop fuel pg max_scrolls max_products walk_init with
  | Stopped _ st => NoDup (product_urls st)
  | _ => True
  end.
Proof.
  apply (walk_state_inv pg max_scrolls max_products (fun st => NoDup (product_urls st))).
  - simpl. constructor.
  - intros st o Hst _ _. rewrite walk_body_urls. by apply add_unique_NoDup.
Qed.

(** ** What is returned *)

(** Every URL the walker returns is a product link the page showed in one
    of the iterations the walk made. *)
Theorem walker_returns_only_seen_links pg max_scrolls max_products urls u :
  scroll_and_load_products pg max_scrolls max_products = Some urls ->
  u ∈ urls ->
  exists n, walk_iterations pg max_scrolls max_products = Some n /\ seen pg n u.
Proof.
  unfold scroll_and_load_products, walk_iterations, walk.
  pose proof (walk_urls_seen pg max_scrolls max_products (Z.to_nat max_scrolls)) as Hseen.
  destruct (walk_loop _ _ _ _ _) as [why st| |]; [|done..].
  intros [= <-] Hu. apply (proj1 (to_url_list_elem _ _)) in Hu. eauto.
Qed.

(** Without a product cap nothing is lost: the walker returns exactly the
    product links the page showed during the iterations it made. *)
Theorem walker_without_cap_returns_all_seen pg max_scrolls urls n :
  scroll_and_load_products pg max_scrolls None = Some urls ->
  walk_iterations pg max_scrolls None = Some n ->
  forall u, u ∈ urls <-> seen pg n u.
Proof.
  unfold scroll_and_load_products, walk_iterations, walk.
  pose proof (walk_urls_seen pg max_scrolls None (Z.to_nat max_scrolls)) as Hsound.
  pose proof (walk_seen_urls pg max_scrolls (Z.to_nat max_scrolls)) as Hcomplete.
  destruct (walk_loop _ _ _ _ _) as [why st| |]; [|done..].
  intros [= <-] [= <-] u. rewrite to_url_list_elem. split; [apply Hsound|apply Hcomplete].
Qed.

(** The accumulated list never holds a URL twice, so the closing
    [list(set(...))] only reorders it. *)
Theorem walker_final_dedup_only_reorders pg max_scrolls max_products why st :
  walk pg max_scrolls max_products = Stopped why st ->
  NoDup (product_urls st) /\ to_url_list (product_urls st) ≡ₚ product_urls st.
Proof.
  intros Hrun.
  pose proof (walk_urls_NoDup pg max_scrolls max_products (Z.to_nat max_scrolls)) as Hnd.
  unfold walk in Hrun. rewrite Hrun in Hnd.
  split; [done|]. unfold to_url_list. by apply elements_list_to_set.
Qed.

(** ** The product cap, exactly *)

#[local] Arguments cap_reached : simpl never.

Lemma walk_cap_lengths pg max_scrolls m fuel :
  1 <= m ->
  match walk_loop fuel pg max_scrolls (Some m) walk_init with
  | Stopped why st =>
      Z.of_nat (length (product_urls st)) <= m
      /\ (why = ProductCap -> Z.of_nat (length (product_urls st)) = m)
      /\ (why <> ProductCap -> Z.of_nat (length (product_urls st)) < m)
  | _ => True
  end.
Proof.
  intros Hm.
  apply (walk_loop_inv pg max_scrolls (Some m)
           (fun st => Z.of_nat (length (product_urls st)) < m)).
  - done.
  - intros st Hst _. split_and!; [lia|done|lia].
  - done.
  - intros st o Hst _ _.
    pose proof (add_unique_length m (current_urls o) (product_urls st) ltac:(lia) Hst) as Hle.
    unfold walk_body.
    destruct (cap_reached (Some m) (add_unique _ _ _)) eqn:Hcap.
    + simpl. split_and!; [done| |done]. intros _.
      unfold cap_reached in Hcap. apply andb_true_iff in Hcap as [_ Hge]. lia.
    + apply cap_not_reached in Hcap; [|lia].
      repeat case_match; simplify_eq; simpl; split_and?; try done; lia.
  - simpl. lia.
Qed.

(** When the walk stops because a cap of at least one is reached, it
    returns exactly as many URLs as the cap; when it stops for another
    reason, fewer. *)
Theorem walker_cap_is_met_exactly pg max_scrolls m why st :
  1 <= m ->
  walk pg max_scrolls (Some m) = Stopped why st ->
  (why = ProductCap -> Z.of_nat (length (to_url_list (product_urls st))) = m)
  /\ (why <> ProductCap -> Z.of_nat (length (to_url_list (product_urls st))) < m).
Proof.
  intros Hm Hrun.
  pose proof (walk_cap_lengths pg max_scrolls m (Z.to_nat max_scrolls) Hm) as Hlen.
  pose proof (walk_urls_NoDup pg max_scrolls (Some m) (Z.to_nat max_scrolls)) as Hnd.
  unfold walk in Hrun. rewrite Hrun in Hlen, Hnd.
  assert (length (to_url_list (product_urls st)) = length (product_urls st)) as ->.
  { apply Permutation_length. unfold to_url_list. by apply elements_list_to_set. }
  destruct Hlen as (_ & ? & ?). done.
Qed.

(** A negative cap counts as reached at once: the walk makes one
    iteration and returns the first product link of the page, if any. *)
Theorem walker_negative_cap_takes_one pg max_scrolls m o :
  m < 0 -> 0 < max_scrolls -> pg 0%nat = Some o ->
  scroll_and_load_products pg max_scrolls (Some m) = Some (take 1 (current_urls o))
  /\ walk_iterations pg max_scrolls (Some m) = Some 1%nat.
Proof.
  intros Hm Hms Ho. unfold scroll_and_load_products, walk_iterations, walk.
  destruct (Z.to_nat max_scrolls) as [|fuel] eqn:Hfuel; [lia|].
  simpl. destruct (Z.ltb_spec 0 max_scrolls); [|lia]. rewrite Ho.
  assert (forall l : list string, cap_reached (Some m) l = true) as Hcap.
  { intros l. unfold cap_reached. apply andb_true_iff. split.
    - apply negb_true_iff, Z.eqb_neq. lia.
    - apply Z.leb_le. lia. }
  unfold walk_body. rewrite Hcap. simpl.
  destruct (current_urls o) as [|u rest]; simpl.
  - split; [|done]. unfold to_url_list. simpl. by rewrite elements_empty.
  - rewrite Hcap. split; [|done]. unfold to_url_list. simpl.
    by rewrite union_empty_r_L, elements_singleton.
Qed.

(** ** Pages that stop growing *)

Lemma walk_renders pg max_scrolls max_products fuel :
  always_renders pg ->
  match walk_loop fuel pg max_scrolls max_products walk_init with
  | RendererError _ => False
  | _ => True
  end.
Proof.
  intros Hpg.
  apply (walk_loop_inv pg max_scrolls max_products (fun _ => True)
           (fun r => match r with RendererError _ => False | _ => True end)); try done.
  - intros st _ _ Hnone. destruct (Hpg (iterations st)) as [o Ho]. congruence.
  - intros st o _ _ _. by destruct (walk_body max_products o st) as [[? ?]|?].
Qed.

Lemma unchanged_constant pg h i :
  constant_height pg h ->
  unchanged pg i = match i with O => h =? 0 | S _ => true end.
Proof.
  intros Hpg. unfold unchanged, prev_height.
  destruct (Hpg i) as (o & -> & Ho). destruct i as [|j]; simpl.
  - by rewrite Ho.
  - destruct (Hpg j) as (o' & -> & Ho'). simpl. rewrite Ho, Ho'. apply Z.eqb_refl.
Qed.

Lemma last_three_constant pg h k :
  constant_height pg h ->
  last_three (unchanged pg) k = true <-> (patience h <= k)%nat.
Proof.
  intros Hpg. rewrite last_three_spec, !(unchanged_constant pg h) by done.
  unfold patience. destruct (Z.eqb_spec h 0) as [->|Hne].
  - split; [intros (? & _); lia|]. intros Hk. split_and!; [done|..]; by repeat case_match.
  - split.
    + intros (Hk & H3 & _). destruct (k - 3)%nat eqn:Hk3; [done|lia].
    + intros Hk. split_and!; [lia|..].
      * destruct (k - 3)%nat eqn:?; [lia|done].
      * destruct (k - 2)%nat eqn:?; [lia|done].
      * destruct (k - 1)%nat eqn:?; [lia|done].
Qed.

(** On a page whose height never changes, and with no product cap, the
    walk makes three iterations if the height is 0 and four otherwise,
    unless [max_scrolls] is smaller. *)
Theorem walker_gives_up_on_still_page pg max_scrolls h :
  constant_height pg h ->
  walk_iterations pg max_scrolls None
  = Some (Nat.min (Z.to_nat max_scrolls) (patience h)).
Proof.
  intros Hpg. unfold walk_iterations, walk.
  pose proof (walk_loop_justified pg max_scrolls None (Z.to_nat max_scrolls)) as Hjust.
  pose proof (walk_renders pg max_scrolls None (Z.to_nat max_scrolls)) as Hren.
  pose proof (walk_fuel_enough pg max_scrolls None) as Hfuel. unfold walk in Hfuel.
  destruct (walk_loop _ _ _ _ _) as [why st| |]; [|exfalso; apply Hren|done].
  2: { intros i. destruct (Hpg i) as (o & -> & _). by eexists. }
  destruct Hjust as (Hfirst & Hle & Hwhy). f_equal.
  assert (iterations st <= patience h)%nat as Hnt.
  { apply Hfirst. apply (last_three_constant pg h); [done|]. done. }
  destruct why.
  - done.
  - destruct Hwhy as [Hthree _]. apply (last_three_constant pg h) in Hthree; [|done].
    lia.
  - destruct Hwhy as (Hn & Hnot & _).
    destruct (decide (patience h <= iterations st)%nat) as [Hge|Hlt]; [|lia].
    apply (last_three_constant pg h) in Hge; [|done]. congruence.
Qed.

(** ** The walk on the sample listings *)

Lemma walker_returns_only_seen_links_witness :
  exists n, walk_iterations listing_of_two 50 None = Some n
            /\ seen listing_of_two n "https://www.ae.com/us/en/p/men/jeans/0001".
Proof.
  apply (walker_returns_only_seen_links listing_of_two 50 None
           ["https://www.ae.com/us/en/p/men/shirts/0002";
            "https://www.ae.com/us/en/p/men/jeans/0001"]).
  - vm_compute. reflexivity.
  - apply elem_of_cons. right. apply list_elem_of_singleton. reflexivity.
Defined.

Lemma walker_without_cap_returns_all_seen_witness :
  "https://www.ae.com/us/en/p/men/shirts/0002"
  ∈ ["https://www.ae.com/us/en/p/men/shirts/0002";
     "https://www.ae.com/us/en/p/men/jeans/0001"]
  <-> seen listing_of_two 4 "https://www.ae.com/us/en/p/men/shirts/0002".
Proof.
  apply (walker_without_cap_returns_all_seen listing_of_two 50).
  - vm_compute. reflexivity.
  - vm_compute. reflexivity.
Defined.

Lemma walker_final_dedup_only_reorders_witness :
  NoDup ["https://www.ae.com/us/en/p/men/jeans/0001";
         "https://www.ae.com/us/en/p/men/shirts/0002"]
  /\ to_url_list ["https://www.ae.com/us/en/p/men/jeans/0001";
                  "https://www.ae.com/us/en/p/men/shirts/0002"]
     ≡ₚ ["https://www.ae.com/us/en/p/men/jeans/0001";
         "https://www.ae.com/us/en/p/men/shirts/0002"].
Proof.
  apply (walker_final_dedup_only_reorders listing_of_two 50 None NoGrowth
           {| product_urls := ["https://www.ae.com/us/en/p/men/jeans/0001";
                               "https://www.ae.com/us/en/p/men/shirts/0002"];
              last_height := 1000; scroll_attempts := 3;
              no_change_count := 3; iterations := 4 |}).
  vm_compute. reflexivity.
Defined.

Lemma walker_cap_is_met_exactly_witness :
  Z.of_nat (length (to_url_list ["https://www.ae.com/us/en/p/men/jeans/0001";
                                 "https://www.ae.com/us/en/p/men/shirts/0002";
                                 "https://www.ae.com/us/en/p/men/shoes/0003"])) = 3.
Proof.
  destruct (walker_cap_is_met_exactly listing_of_four 50 3 ProductCap
              {| product_urls := ["https://www.ae.com/us/en/p/men/jeans/0001";
                                  "https://www.ae.com/us/en/p/men/shirts/0002";
                                  "https://www.ae.com/us/en/p/men/shoes/0003"];
                 last_height := 0; scroll_attempts := 0;
                 no_change_count := 0; iterations := 1 |}) as [Hexact _].
  - lia.
  - vm_compute. reflexivity.
  - apply Hexact. reflexivity.
Defined.

Lemma walker_negative_cap_takes_one_witness :
  scroll_and_load_products listing_of_four 50 (Some (-1))
  = Some ["https://www.ae.com/us/en/p/men/jeans/0001"]
  /\ walk_iterations listing_of_four 50 (Some (-1)) = Some 1%nat.
Proof.
  apply (walker_negative_cap_takes_one listing_of_four 50 (-1)
           {| height := 1000;
              anchors := [link "/us/en/p/men/jeans/0001";
                          link "/us/en/p/men/shirts/0002";
                          link "/us/en/p/men/shoes/0003";
                          link "/us/en/p/men/hats/0004"] |}).
  - lia.
  - lia.
  - reflexivity.
Defined.

Lemma walker_gives_up_on_still_page_witness :
  walk_iterations listing_of_four 50 None = Some 4%nat.
Proof.
  apply (walker_gives_up_on_still_page listing_of_four 50 1000).
  intros i. eexists. split; reflexivity.
Defined.

End WalkerMore.

(** * Further properties of the product extractor *)

Module ExtractorMore.
Import Text Extractor TextProofs ExtractorProofs.

(** ** Trimming *)

Lemma lstrip_starts p s : starts_with_char p (lstrip p s) = false.
Proof.
  induction s as [|c s IH]; simpl; [done|].
  destruct (p c) eqn:Hc; [done|]. simpl. done.
Qed.

Lemma lstrip_fixed p s : starts_with_char p s = false -> lstrip p s = s.
Proof. destruct s as [|c s]; simpl; [done|]. by intros ->. Qed.

Lemma rstrip_starts p s :
  starts_with_char p s = false -> starts_with_char p (rstrip p s) = false.
Proof. destruct s as [|c s]; simpl; [done|]. intros Hc. by rewrite Hc. Qed.

Lemma rstrip_idem p s : rstrip p (rstrip p s) = rstrip p s.
Proof.
  induction s as [|c s IH]; simpl; [done|].
  destruct (p c && is_empty (rstrip p s)) eqn:He; simpl; [done|].
  by rewrite IH, He.
Qed.

(** Stripping both ends a second time changes nothing. *)
Lemma strip_idem p s :
  rstrip p (lstrip p (rstrip p (lstrip p s))) = rstrip p (lstrip p s).
Proof.
  rewrite (lstrip_fixed p (rstrip p (lstrip p s))).
  - apply rstrip_idem.
  - apply rstrip_starts, lstrip_starts.
Qed.

Lemma js_trim_idem s : js_trim (js_trim s) = js_trim s.
Proof. apply strip_idem. Qed.

Lemma py_strip_idem s : py_strip (py_strip s) = py_strip s.
Proof. apply strip_idem. Qed.

(** The title the page script reports is the trimmed text of one of the
    candidate elements, is not empty, and has nothing left to trim. *)
Theorem script_title_is_trimmed els t :
  js_title els = Some t ->
  t <> EmptyString /\ js_trim t = t /\ exists x, Some x ∈ els /\ t = js_trim x.
Proof.
  induction els as [|[x|] els IH]; simpl; [done| |].
  - destruct (is_empty (js_trim x)) eqn:He.
    + intros Ht. destruct (IH Ht) as (? & ? & y & ? & ?).
      split_and!; [done..|]. exists y. split; [by constructor|done].
    + intros [= <-]. split_and!.
      * intros Hx. by rewrite Hx in He.
      * apply js_trim_idem.
      * exists x. split; [by constructor|done].
  - intros Ht. destruct (IH Ht) as (? & ? & y & ? & ?).
    split_and!; [done..|]. exists y. split; [by constructor|done].
Qed.

(** ** Currency *)

Lemma js_currency_match_range s m :
  js_currency_match s = Some m -> m = "$" \/ m = "USD" \/ m = "EUR" \/ m = "GBP".
Proof.
  induction s as [|c s IH]; [done|].
  change (js_currency_match (String c s)) with
    (if startswith "$" (String c s) then Some "$"
     else if startswith "USD" (String c s) then Some "USD"
     else if startswith "EUR" (String c s) then Some "EUR"
     else if startswith "GBP" (String c s) then Some "GBP"
     else js_currency_match s).
  repeat (destruct (startswith _ (String c s)); [intros [= <-]; eauto|]).
  exact IH.
Qed.

(** The currency of a page is always one of the three codes; the dollar
    sign itself is never reported. *)
Theorem currency_is_a_known_code body_text :
  js_currency body_text = "USD" \/ js_currency body_text = "EUR"
  \/ js_currency body_text = "GBP".
Proof.
  unfold js_currency. destruct (js_currency_match body_text) as [m|] eqn:Hm; [|by left].
  destruct (js_currency_match_range _ _ Hm) as [-> | [-> | [-> | ->]]]; simpl; eauto.
Qed.

(** ** Prices *)

Lemma decimal_nonneg ip fp : (0 <= decimal ip fp)%Q.
Proof.
  unfold decimal. rewrite Qred_correct. unfold Qle. simpl. lia.
Qed.

Lemma py_float_nonneg s q : py_float s = Some q -> (0 <= q)%Q.
Proof.
  unfold py_float. destruct (span is_digit s) as [ip r].
  destruct r as [|c fp].
  - destruct (is_empty ip); [done|]. intros [= <-]. apply decimal_nonneg.
  - repeat case_match; try done; intros [= <-]; apply decimal_nonneg.
Qed.

Lemma parse_price_nonneg t q : parse_price t = Some (Some q) -> (0 <= q)%Q.
Proof.
  unfold parse_price. destruct t as [t|]; [|done].
  destruct (is_empty t); [done|].
  destruct (py_float t) as [v|] eqn:Hv.
  - intros [= <-]. by eapply py_float_nonneg.
  - destruct (py_first_number t) as [m|]; [|done].
    destruct (py_float m) as [v|] eqn:Hm; [|done].
    intros [= <-]. by eapply py_float_nonneg.
Qed.




(** ** The embedding *)

Lemma generate_embedding_some resp v :
  generate_embedding resp = Some v -> resp = EmbedVector v /\ length v = 768%nat.
Proof.
  destruct resp as [|w]; simpl; [done|].
  case_bool_decide as Hlen; [done|]. intros [= <-].
  done.
Qed.

Section WithLibraries.
Variable urljoin : string -> string -> string.
Variable sha256_hex : string -> string.

Abbreviation extract := (extract_product_data urljoin sha256_hex).

(** The fields of a returned record, read off the page. *)
Lemma extract_fields pp url r :
  extract pp url = Some r ->
  exists t image_url,
    jd_title (extract_script (pp_dom pp)) = Some t
    /\ pr_id r = generate_product_id sha256_hex url
    /\ pr_source r = "scraper"
    /\ pr_product_url r = url
    /\ pr_title r = py_strip t
    /\ pr_description r = strip_or_none (jd_description (extract_script (pp_dom pp)))
    /\ pr_category r = strip_or_none (jd_category (extract_script (pp_dom pp)))
    /\ parse_price (jd_price_text (extract_script (pp_dom pp))) = Some (pr_price r)
    /\ pr_embedding r = generate_embedding (pp_embed pp image_url).
Proof.
  unfold extract_product_data.
  destruct (negb (pp_goto_ok pp)); [done|].
  destruct (jd_title _) as [t|] eqn:Ht; [|done].
  destruct (is_empty t); [done|].
  destruct (is_empty (jd_image_url _)); [done|].
  destruct (parse_price _) as [price|]; [|done].
  destruct (full_image_url _ _) as [image_url|]; [|done].
  intros [= <-]. exists t, image_url. simpl. split_and!; done.
Qed.

(** A price, when present, is never negative. *)
Theorem price_is_never_negative pp url r q :
  extract_product_data urljoin sha256_hex pp url = Some r ->
  pr_price r = Some q -> (0 <= q)%Q.
Proof.
  intros Hr Hq. destruct (extract_fields _ _ _ Hr) as (t & i & _ & _ & _ & _ & _ & _ & _ & Hp & _).
  rewrite Hq in Hp. by eapply parse_price_nonneg.
Qed.

(** An embedding, when present, has exactly 768 coordinates. *)
Theorem embedding_has_768_dimensions pp url r v :
  extract_product_data urljoin sha256_hex pp url = Some r ->
  pr_embedding r = Some v -> length v = 768%nat.
Proof.
  intros Hr Hv. destruct (extract_fields _ _ _ Hr) as (t & i & _ & _ & _ & _ & _ & _ & _ & _ & He).
  rewrite Hv in He. symmetry in He. by apply generate_embedding_some in He as [_ ?].
Qed.

(** The text fields of a record carry no surrounding whitespace: title,
    and description and category when present, are unchanged by another
    [strip()]. *)
Theorem record_text_is_stripped pp url r :
  extract_product_data urljoin sha256_hex pp url = Some r ->
  py_strip (pr_title r) = pr_title r
  /\ (forall d, pr_description r = Some d -> py_strip d = d)
  /\ (forall c, pr_category r = Some c -> py_strip c = c).
Proof.
  intros Hr.
  destruct (extract_fields _ _ _ Hr) as (t & i & _ & _ & _ & _ & Ht & Hd & Hc & _).
  assert (forall s x, strip_or_none s = Some x -> py_strip x = x) as Hstrip.
  { intros s x. unfold strip_or_none. destruct (is_empty s); [done|].
    intros [= <-]. apply py_strip_idem. }
  split_and!.
  - rewrite Ht. apply py_strip_idem.
  - intros d Hd'. rewrite Hd' in Hd. symmetry in Hd. by eapply Hstrip.
  - intros c Hc'. rewrite Hc' in Hc. symmetry in Hc. by eapply Hstrip.
Qed.

(** Two extractions of the same product URL, whatever the page shows
    each time, give records with the same identity and the same key
    (source, product URL) for the sink's upsert. *)
Theorem record_identity_depends_on_url_only pp pp' url r r' :
  extract_product_data urljoin sha256_hex pp url = Some r ->
  extract_product_data urljoin sha256_hex pp' url = Some r' ->
  pr_id r = pr_id r' /\ pr_source r = pr_source r'
  /\ pr_product_url r = pr_product_url r'.
Proof.
  intros Hr Hr'.
  destruct (extract_fields _ _ _ Hr) as (_ & _ & _ & -> & -> & -> & _).
  destruct (extract_fields _ _ _ Hr') as (_ & _ & _ & -> & -> & -> & _).
  done.
Qed.

End WithLibraries.

(** ** The samples *)

Lemma script_title_is_trimmed_witness :
  "AE Slim Jean" <> EmptyString /\ js_trim "AE Slim Jean" = "AE Slim Jean"
  /\ exists x, Some x ∈ [None; Some "  AE Slim Jean "] /\ "AE Slim Jean" = js_trim x.
Proof.
  apply (script_title_is_trimmed [None; Some "  AE Slim Jean "]).
  vm_compute. reflexivity.
Defined.


Lemma price_is_never_negative_witness : (0 <= 4999 # 100)%Q.
Proof.
  destruct (extract_product_data urljoin_simple digest_stub
              (jeans_page hosted_image EmbedRaises) Orchestrator.jeans_url) as [r|] eqn:Hr;
    [|vm_compute in Hr; discriminate].
  apply (price_is_never_negative urljoin_simple digest_stub _ _ r _ Hr).
  vm_compute in Hr. injection Hr as <-. reflexivity.
Defined.

Lemma embedding_has_768_dimensions_witness :
  length (replicate 768 0%Q) = 768%nat.
Proof.
  destruct (extract_product_data urljoin_simple digest_stub
              (jeans_page hosted_image (EmbedVector (replicate 768 0%Q))) Orchestrator.jeans_url)
    as [r|] eqn:Hr; [|vm_compute in Hr; discriminate].
  apply (embedding_has_768_dimensions urljoin_simple digest_stub _ _ r _ Hr).
  vm_compute in Hr. injection Hr as <-. reflexivity.
Defined.

Lemma record_text_is_stripped_witness : py_strip "AE Slim Jean" = "AE Slim Jean".
Proof.
  destruct (extract_product_data urljoin_simple digest_stub
              (jeans_page hosted_image EmbedRaises) Orchestrator.jeans_url) as [r|] eqn:Hr;
    [|vm_compute in Hr; discriminate].
  destruct (record_text_is_stripped urljoin_simple digest_stub _ _ r Hr) as [Ht _].
  vm_compute in Hr. injection Hr as <-. exact Ht.
Defined.

Lemma record_identity_depends_on_url_only_witness :
  from_option pr_id EmptyString
    (extract_product_data urljoin_simple digest_stub
       (jeans_page hosted_image EmbedRaises) Orchestrator.jeans_url)
  = from_option pr_id EmptyString
      (extract_product_data urljoin_simple digest_stub
         (jeans_page lazy_image short_vector) Orchestrator.jeans_url).
Proof.
  destruct (extract_product_data urljoin_simple digest_stub
              (jeans_page hosted_image EmbedRaises) Orchestrator.jeans_url) as [r|] eqn:Hr;
    [|vm_compute in Hr; discriminate].
  destruct (extract_product_data urljoin_simple digest_stub
              (jeans_page lazy_image short_vector) Orchestrator.jeans_url) as [r'|] eqn:Hr';
    [|vm_compute in Hr'; discriminate].
  simpl.
  by destruct (record_identity_depends_on_url_only urljoin_simple digest_stub
                 _ _ _ r r' Hr Hr') as [? _].
Defined.

End ExtractorMore.

(** * Further properties of the crawl *)

Module OrchestratorMore.
Import Text Extractor Orchestrator Main Views OrchestratorProofs.

Lemma accepted_urls_app log log' :
  accepted_urls (log ++ log') = accepted_urls log ++ accepted_urls log'.
Proof. unfold accepted_urls. by rewrite List.filter_app, map_app. Qed.

Lemma rejected_urls_app log log' :
  rejected_urls (log ++ log') = rejected_urls log ++ rejected_urls log'.
Proof. unfold rejected_urls. by rewrite List.filter_app, map_app. Qed.

Section WithLibraries.
Variable urljoin : string -> string -> string.
Variable sha256_hex : string -> string.

Abbreviation extract := (extract_product_data urljoin sha256_hex).
Abbreviation process := (process_product urljoin sha256_hex).
Abbreviation run_from' := (run_from urljoin sha256_hex).

(** ** Invariants of a run *)

(** What every product step and every category visit keep holds of the
    whole run. *)
Lemma run_from_inv (P : crawl_state -> Prop) :
  (forall c st, P st -> P (note_visit c st)) ->
  (forall cw st url, P st -> P (process cw st url)) ->
  forall world cats i mp st, P st -> P (fst (run_from' world i cats mp st)).
Proof.
  intros Hvisit Hstep world cats.
  assert (forall cw urls st, P st -> P (foldl (process cw) st urls)) as Hfold.
  { intros cw urls. induction urls as [|u urls IH]; intros st Hst; simpl; [done|].
    by apply IH, Hstep. }
  induction cats as [|c cats IH]; intros i mp st Hst; simpl; [done|].
  unfold scrape_category.
  destruct (negb (cw_goto_ok (world i))); simpl; [by apply Hvisit|].
  destruct (Walker.scroll_and_load_products _ _ _) as [urls|]; simpl; [|by apply Hvisit].
  by apply IH, Hfold, Hvisit.
Qed.

Lemma extract_url pp url r : extract pp url = Some r -> pr_product_url r = url.
Proof.
  intros Hr. by destruct (extract_some _ _ _ _ _ Hr)
    as (_ & _ & _ & _ & _ & _ & _ & _ & _ & _ & _ & ? & _).
Qed.

Lemma process_keeps_ledger cw st url :
  ledger_consistent st -> ledger_consistent (process cw st url).
Proof.
  intros (Hacc & Hnd & Hrej).
  destruct (process_product_kind urljoin sha256_hex cw st url)
    as [?|r Hnew Hr _ _|r Hnew Hr _ _|r Hnew Hr _|Hnew Hr]; unfold ledger_consistent; simpl.
  - done.
  - rewrite accepted_urls_app, rejected_urls_app.
    change (accepted_urls [(r, true)]) with [pr_product_url r].
    change (rejected_urls [(r, true)]) with (@nil string).
    rewrite (extract_url _ _ _ Hr), app_nil_r. split_and!.
    + intros u. rewrite elem_of_union, elem_of_singleton, elem_of_app, list_elem_of_singleton.
      rewrite Hacc. tauto.
    + apply NoDup_app. split_and!; [done| |apply NoDup_singleton].
      intros u Hu ->%list_elem_of_singleton. by apply Hnew, Hacc.
    + done.
  - rewrite accepted_urls_app, rejected_urls_app.
    change (accepted_urls [(r, false)]) with (@nil string).
    change (rejected_urls [(r, false)]) with [pr_product_url r].
    rewrite (extract_url _ _ _ Hr), app_nil_r. split_and!; [done..|].
    intros u [Hu|Hu%list_elem_of_singleton]%elem_of_app; set_solver.
  - rewrite !app_nil_r. split_and!; [done..|]. set_solver.
  - rewrite !app_nil_r. split_and!; [done..|]. set_solver.
Qed.

Lemma run_keeps_ledger world cats mp :
  ledger_consistent (fst (run urljoin sha256_hex world cats mp)).
Proof.
  unfold run. apply (run_from_inv ledger_consistent).
  - done.
  - apply process_keeps_ledger.
  - unfold ledger_consistent. simpl. split_and!; [set_solver|constructor|set_solver].
Qed.

(** After a run, the success set holds exactly the product URLs of the
    records the sink accepted, and every URL whose write the sink rejected
    is in the failure set. *)
Theorem saved_urls_are_the_accepted_writes world cats mp :
  (forall u,
     u ∈ scraped_urls (fst (run urljoin sha256_hex world cats mp))
     <-> u ∈ accepted_urls (sink_log (fst (run urljoin sha256_hex world cats mp))))
  /\ (forall u,
       u ∈ rejected_urls (sink_log (fst (run urljoin sha256_hex world cats mp))) ->
       u ∈ failed_urls (fst (run urljoin sha256_hex world cats mp))).
Proof. destruct (run_keeps_ledger world cats mp) as (? & _ & ?). done. Qed.

(** Within a run the sink accepts at most one write per product URL: a
    saved product is not written again. *)
Theorem no_url_is_saved_twice world cats mp :
  NoDup (accepted_urls (sink_log (fst (run urljoin sha256_hex world cats mp)))).
Proof. by destruct (run_keeps_ledger world cats mp) as (_ & ? & _). Qed.

(** ** Where the URLs of the two sets come from *)

Lemma process_within cw st url :
  scraped_urls (process cw st url) ⊆ scraped_urls st ∪ {[url]}
  /\ failed_urls (process cw st url) ⊆ failed_urls st ∪ {[url]}.
Proof.
  destruct (step_kind_sets urljoin sha256_hex _ _ _ _
              (process_product_kind urljoin sha256_hex cw st url))
    as [[-> ->]|[(_ & -> & ->)|(_ & -> & ->)]]; set_solver.
Qed.

Lemma foldl_process_within cw urls st :
  scraped_urls (foldl (process cw) st urls) ⊆ scraped_urls st ∪ list_to_set urls
  /\ failed_urls (foldl (process cw) st urls) ⊆ failed_urls st ∪ list_to_set urls.
Proof.
  revert st. induction urls as [|u urls IH]; intros st; simpl; [set_solver|].
  destruct (IH (process cw st u)) as [? ?].
  destruct (process_within cw st u) as [? ?]. set_solver.
Qed.

Lemma run_from_provenance world mp cats : forall i st u,
  u ∈ scraped_urls (fst (run_from' world i cats mp st))
     ∪ failed_urls (fst (run_from' world i cats mp st)) ->
  u ∈ scraped_urls st ∪ failed_urls st
  \/ exists j, (i <= j < i + length cats)%nat /\ u ∈ listing world mp j.
Proof.
  induction cats as [|c cats IH]; intros i st u; simpl; [by left|].
  unfold scrape_category.
  destruct (negb (cw_goto_ok (world i))); simpl; [by left|].
  destruct (Walker.scroll_and_load_products _ _ _) as [urls|] eqn:Hurls; simpl; [|by left].
  intros [Hu|(j & Hj & Hin)]%IH.
  - destruct (foldl_process_within (world i) urls (note_visit c st)) as [Hs Hf].
    simpl in Hs, Hf.
    assert (u ∈ scraped_urls st ∪ failed_urls st \/ u ∈ urls) as [?|Hin] by set_solver.
    + by left.
    + right. exists i. split; [lia|]. unfold listing. by rewrite Hurls.
  - right. exists j. split; [lia|done].
Qed.

(** Every URL in the success set or the failure set after a run was
    listed by one of the run's categories. *)
Theorem recorded_urls_were_listed world cats mp u :
  u ∈ scraped_urls (fst (run urljoin sha256_hex world cats mp))
     ∪ failed_urls (fst (run urljoin sha256_hex world cats mp)) ->
  exists j, (j < length cats)%nat /\ u ∈ listing world mp j.
Proof.
  intros [Hu|(j & Hj & Hin)]%run_from_provenance.
  - simpl in Hu. set_solver.
  - exists j. split; [lia|done].
Qed.

(** ** Every listed product is accounted for *)

Lemma process_accounts cw st url :
  url ∈ scraped_urls (process cw st url) ∪ failed_urls (process cw st url).
Proof.
  destruct (process_product_kind urljoin sha256_hex cw st url); simpl; set_solver.
Qed.

Lemma foldl_process_accounts cw urls st u :
  u ∈ urls ->
  u ∈ scraped_urls (foldl (process cw) st urls) ∪ failed_urls (foldl (process cw) st urls).
Proof.
  revert st. induction urls as [|v urls IH]; intros st Hu; [by apply elem_of_nil in Hu|].
  simpl. apply elem_of_cons in Hu as [->|Hu]; [|by apply IH].
  pose proof (process_accounts cw st v).
  destruct (foldl_process_mono urljoin sha256_hex cw urls (process cw st v)). set_solver.
Qed.

Lemma run_from_accounts world mp cats : forall i st j u,
  snd (run_from' world i cats mp st) = Returned ->
  (j < length cats)%nat -> u ∈ listing world mp (i + j) ->
  u ∈ scraped_urls (fst (run_from' world i cats mp st))
     ∪ failed_urls (fst (run_from' world i cats mp st)).
Proof.
  induction cats as [|c cats IH]; intros i st j u; simpl; [lia|].
  unfold scrape_category, listing.
  destruct (negb (cw_goto_ok (world i))); simpl; [done|].
  destruct (Walker.scroll_and_load_products (cw_page (world i)) 50 mp) as [urls|] eqn:Hurls;
    simpl; [|done].
  intros Hret Hj Hu. destruct j as [|j].
  - rewrite Nat.add_0_r, Hurls in Hu. simpl in Hu.
    pose proof (foldl_process_accounts (world i) urls (note_visit c st) u Hu).
    destruct (run_from_mono urljoin sha256_hex world (S i) cats mp
                (foldl (process (world i)) (note_visit c st) urls)).
    set_solver.
  - apply (IH (S i) _ j); [done|lia|].
    unfold listing. by replace (S i + j)%nat with (i + S j)%nat by lia.
Qed.

(** When a run returns, every product URL that any of its categories
    listed is in the success set or in the failure set: a failure on one
    product never drops another. *)
Theorem every_listed_url_is_accounted_for world cats mp j u :
  snd (run urljoin sha256_hex world cats mp) = Returned ->
  (j < length cats)%nat -> u ∈ listing world mp j ->
  u ∈ scraped_urls (fst (run urljoin sha256_hex world cats mp))
     ∪ failed_urls (fst (run urljoin sha256_hex world cats mp)).
Proof. intros Hret Hj Hu. by apply (run_from_accounts world mp cats 0 crawl_init j u). Qed.

(** ** How much a capped run writes *)

Lemma process_log_length cw st url :
  (length (sink_log (process cw st url)) <= S (length (sink_log st)))%nat.
Proof.
  destruct (process_product_kind urljoin sha256_hex cw st url); simpl;
    rewrite ?length_app; simpl; lia.
Qed.

Lemma foldl_process_log_length cw urls st :
  (length (sink_log (foldl (process cw) st urls))
   <= length (sink_log st) + length urls)%nat.
Proof.
  revert st. induction urls as [|u urls IH]; intros st; simpl; [lia|].
  pose proof (IH (process cw st u)). pose proof (process_log_length cw st u). lia.
Qed.

Lemma capped_listing_length pg max_scrolls m urls :
  1 <= m ->
  Walker.scroll_and_load_products pg max_scrolls (Some m) = Some urls ->
  (length urls <= Z.to_nat m)%nat.
Proof.
  intros Hm. unfold Walker.scroll_and_load_products, Walker.walk.
  pose proof (WalkerMore.walk_cap_lengths pg max_scrolls m (Z.to_nat max_scrolls) Hm) as Hlen.
  destruct (Walker.walk_loop _ _ _ _ _) as [why st| |]; [|done..].
  intros [= <-]. destruct Hlen as [Hle _].
  pose proof (WalkerProofs.to_url_list_length (Walker.product_urls st)). lia.
Qed.

Lemma run_from_log_length world m cats : forall i st,
  1 <= m ->
  (length (sink_log (fst (run_from' world i cats (Some m) st)))
   <= length (sink_log st) + Z.to_nat m * length cats)%nat.
Proof.
  induction cats as [|c cats IH]; intros i st Hm; simpl; [lia|].
  unfold scrape_category.
  destruct (negb (cw_goto_ok (world i))); simpl; [lia|].
  destruct (Walker.scroll_and_load_products _ _ _) as [urls|] eqn:Hurls; simpl; [|lia].
  pose proof (capped_listing_length _ _ _ _ Hm Hurls).
  pose proof (foldl_process_log_length (world i) urls (note_visit c st)) as Hfold.
  simpl in Hfold.
  pose proof (IH (S i) (foldl (process (world i)) (note_visit c st) urls) Hm). nia.
Qed.

(** With a cap of at least one product per category, a run hands at most
    cap times the number of categories records to the sink. *)
Theorem capped_run_writes_are_bounded world cats m :
  1 <= m ->
  (length (sink_log (fst (run urljoin sha256_hex world cats (Some m))))
   <= Z.to_nat m * length cats)%nat.
Proof.
  intros Hm. pose proof (run_from_log_length world m cats 0 crawl_init Hm) as H.
  simpl in H. exact H.
Qed.

(** In test mode [main] hands at most 5 records to the sink, and the test
    script at most 3. *)
Theorem test_runs_write_little argv world :
  (TEST_MODE argv = true ->
   (length (sink_log (fst (main urljoin sha256_hex argv world))) <= 5)%nat)
  /\ (length (sink_log (fst (test_scraper urljoin sha256_hex world))) <= 3)%nat.
Proof.
  split.
  - intros Htest. unfold main, MAX_PRODUCTS. rewrite Htest.
    pose proof (run_from_log_length world 5 category_urls 0 crawl_init ltac:(lia)) as H.
    simpl in H. exact H.
  - pose proof (run_from_log_length world 3 category_urls 0 crawl_init ltac:(lia)) as H.
    simpl in H. exact H.
Qed.

End WithLibraries.

(** ** The summary *)

(** The summary's sample of failures lists ten distinct failed URLs, or
    all of them when there are fewer. *)
Theorem failed_sample_is_a_bounded_sample st :
  length (failed_sample st) = Nat.min 10 (size (failed_urls st))
  /\ NoDup (failed_sample st)
  /\ Forall (fun u => u ∈ failed_urls st) (failed_sample st).
Proof.
  unfold failed_sample. split_and!.
  - by rewrite length_take.
  - apply (sublist_NoDup _ (elements (failed_urls st)));
      [apply NoDup_elements|apply sublist_take].
  - apply Forall_forall. intros u Hu. apply elem_of_elements.
    apply (elem_of_sublist (take 10 (elements (failed_urls st)))); [done|apply sublist_take].
Qed.

(** ** The samples *)

Lemma saved_urls_are_the_accepted_writes_witness :
  jeans_url
  ∈ failed_urls (fst (run urljoin_simple digest_stub retry_world ["/c/men"] None)).
Proof.
  destruct (saved_urls_are_the_accepted_writes urljoin_simple digest_stub
              retry_world ["/c/men"] None) as [_ Hrej].
  apply Hrej. vm_compute. apply list_elem_of_singleton. reflexivity.
Defined.

Lemma recorded_urls_were_listed_witness :
  exists j, (j < 2)%nat /\ jeans_url ∈ listing retry_world None j.
Proof.
  apply (recorded_urls_were_listed urljoin_simple digest_stub
           retry_world ["/c/men"; "/c/men/jeans"] None jeans_url).
  apply elem_of_union. left. vm_compute. reflexivity.
Defined.

Lemma every_listed_url_is_accounted_for_witness :
  jeans_url
  ∈ scraped_urls (fst (run urljoin_simple digest_stub retry_world ["/c/men"] None))
    ∪ failed_urls (fst (run urljoin_simple digest_stub retry_world ["/c/men"] None)).
Proof.
  apply (every_listed_url_is_accounted_for urljoin_simple digest_stub
           retry_world ["/c/men"] None 0%nat jeans_url).
  - vm_compute. reflexivity.
  - simpl. lia.
  - vm_compute. apply list_elem_of_singleton. reflexivity.
Defined.

Lemma capped_run_writes_are_bounded_witness :
  (length (sink_log (fst (run urljoin_simple digest_stub retry_world
                            ["/c/men"; "/c/men/jeans"] (Some 1%Z))))
   <= Z.to_nat 1%Z * length ["/c/men"; "/c/men/jeans"])%nat.
Proof.
  apply (capped_run_writes_are_bounded urljoin_simple digest_stub). lia.
Defined.

Lemma test_runs_write_little_witness :
  (length (sink_log (fst (main urljoin_simple digest_stub
                            ["scraper.py"; "--test"] retry_world))) <= 5)%nat.
Proof.
  destruct (test_runs_write_little urljoin_simple digest_stub
              ["scraper.py"; "--test"] retry_world) as [Hmain _].
  apply Hmain. vm_compute. reflexivity.
Defined.

End OrchestratorMore.
